(** * lintai/ui/server.py: run registry, result store, findings filter,
      workspace guard and inventory sub-graph helper

    A shallow embedding of the helpers and endpoints of
    [src/lintai/ui/server.py] and the properties the design document states
    about them.  Python dictionaries are finite maps ([gmap]), Python sets
    are [gset]s, exceptions are the [Raise] case of an error monad, and the
    files under [DATA_DIR] are a finite map from paths to the JSON value
    each file holds. *)

From Stdlib Require Import ZArith Ascii String.
From stdpp Require Import base option list gmap strings fin_maps fin_sets.

Local Set Warnings "-register-all".
Open Scope string_scope.
Open Scope list_scope.

(* ===================================================================== *)
(** ** Exceptions and the error monad *)
(* ===================================================================== *)

(** The exceptions the modelled code can raise.  [HTTPException] carries
    the status code; the others are Python's built-in exceptions, and
    [ValidationError] is pydantic's. *)
Inductive exn : Type :=
| HTTPException (status_code : nat)
| KeyError (key : string)
| TypeError
| AttributeError
| ValueError
| RuntimeError
| ValidationError.

Inductive result (A : Type) : Type :=
| Ok (a : A)
| Raise (e : exn).
Arguments Ok {A} a.
Arguments Raise {A} e.

Definition bind {A B : Type} (m : result A) (k : A → result B) : result B :=
  match m with
  | Ok a => k a
  | Raise e => Raise e
  end.

Notation "'let*' x := m 'in' k" := (bind m (fun x => k))
  (at level 10, x name, m at level 100, k at level 200).

(** [try: m except Exception: h] *)
Definition try_except {A : Type} (m : result A) (h : result A) : result A :=
  match m with
  | Ok a => Ok a
  | Raise _ => h
  end.

(** A comprehension or loop whose body may raise: the first exception
    aborts it. *)
Fixpoint for_each {A B : Type} (f : A → result B) (l : list A) : result (list B) :=
  match l with
  | [] => Ok []
  | x :: rest =>
      let* y := f x in
      let* ys := for_each f rest in
      Ok (y :: ys)
  end.

(** [[x for x in l if p(x)]] where the test may raise. *)
Fixpoint filter_by {A : Type} (p : A → result bool) (l : list A) : result (list A) :=
  match l with
  | [] => Ok []
  | x :: rest =>
      let* b := p x in
      let* ys := filter_by p rest in
      Ok (if b then x :: ys else ys)
  end.

(* ===================================================================== *)
(** ** JSON values and the Python operations used on them *)
(* ===================================================================== *)

(** What [json.loads] returns.  Numbers are integers here: no modelled
    operation looks inside a number. *)
Inductive json : Type :=
| JNull
| JBool (b : bool)
| JNum (z : Z)
| JStr (s : string)
| JArr (l : list json)
| JObj (kv : gmap string json).

(** Python truthiness: [None], [False], [0], [""], [[]] and [{}] are
    falsy. *)
Definition truthy (j : json) : bool :=
  match j with
  | JNull => false
  | JBool b => b
  | JNum z => negb (z =? 0)%Z
  | JStr s => negb (String.eqb s "")
  | JArr l => match l with [] => false | _ => true end
  | JObj kv => negb (bool_decide (kv = ∅))
  end.

(** [d.get(k, dflt)]: only dictionaries have [get]. *)
Definition dict_get (d : json) (k : string) (dflt : json) : result json :=
  match d with
  | JObj kv => Ok (default dflt (kv !! k))
  | _ => Raise AttributeError
  end.

(** [d[k]] with a string key: [KeyError] on a dictionary without the key,
    [TypeError] on anything that is not a dictionary. *)
Definition getitem (d : json) (k : string) : result json :=
  match d with
  | JObj kv =>
      match kv !! k with
      | Some v => Ok v
      | None => Raise (KeyError k)
      end
  | _ => Raise TypeError
  end.

(** [d[k] = v] on a dictionary. *)
Definition setitem (d : json) (k : string) (v : json) : result json :=
  match d with
  | JObj kv => Ok (JObj (<[k := v]> kv))
  | _ => Raise TypeError
  end.

Fixpoint chars (s : string) : list json :=
  match s with
  | EmptyString => []
  | String c rest => JStr (String c EmptyString) :: chars rest
  end.

(** [for x in j]: a list yields its elements, a string its characters, a
    dictionary its keys; nothing else is iterable. *)
Definition py_iter (j : json) : result (list json) :=
  match j with
  | JArr l => Ok l
  | JStr s => Ok (chars s)
  | JObj kv => Ok ((λ kv, JStr kv.1) <$> map_to_list kv)
  | _ => Raise TypeError
  end.

(** [needle in hay] on strings: [needle] occurs in [hay] as a contiguous
    substring. *)
Fixpoint contains (needle hay : string) : bool :=
  String.prefix needle hay ||
  match hay with
  | EmptyString => false
  | String _ rest => contains needle rest
  end.

Definition is_str (s : string) (j : json) : bool :=
  match j with
  | JStr t => String.eqb t s
  | _ => false
  end.

(** [s in j] for a string [s]: substring test on a string, membership on a
    list, key test on a dictionary, [TypeError] otherwise. *)
Definition py_in (s : string) (j : json) : result bool :=
  match j with
  | JStr t => Ok (contains s t)
  | JArr l => Ok (existsb (is_str s) l)
  | JObj kv => Ok (bool_decide (is_Some (kv !! s)))
  | _ => Raise TypeError
  end.

(** [j == s] for a string [s]. *)
Definition eq_str (j : json) (s : string) : bool := is_str s j.

(** An optional string parameter used as a condition ([if severity:]):
    [None] and the empty string are both falsy. *)
Definition given (o : option string) : option string :=
  match o with
  | Some s => if String.eqb s "" then None else Some s
  | None => None
  end.

(* ===================================================================== *)
(** ** pathlib: pure paths *)
(* ===================================================================== *)

(** A POSIX path as [pathlib] keeps it: whether it starts at the root, and
    its components.  (The implementation-defined root [//] is not
    distinguished from [/].) *)
Record Path : Type := mkPath { absolute : bool; parts : list string }.

#[global] Instance Path_eq_dec : EqDecision Path.
Proof. solve_decision. Defined.

#[global] Instance Path_countable : Countable Path.
Proof.
  refine (inj_countable' (λ p, (absolute p, parts p))
                         (λ t, mkPath t.1 t.2) _).
  by intros [].
Defined.

(** [s.split("/")], with [cur] the component being read. *)
Fixpoint split_slash (s : string) (cur : string) : list string :=
  match s with
  | EmptyString => [cur]
  | String c rest =>
      if Ascii.eqb c "/"%char then cur :: split_slash rest ""
      else split_slash rest (cur +:+ String c EmptyString)
  end.

Definition is_component (p : string) : bool :=
  negb (String.eqb p "") && negb (String.eqb p ".").

(** [Path(s)]: empty and [.] components are dropped, [..] is kept. *)
Definition Path_of_string (s : string) : Path :=
  mkPath (String.prefix "/" s) (List.filter is_component (split_slash s "")).

(** What [_safe] and [Path()] accept: a string or a path object
    ([list_dir] passes [ROOT] itself). *)
Inductive pathlike : Type :=
| PStr (s : string)
| PPath (p : Path).

Definition Path_of_pathlike (x : pathlike) : Path :=
  match x with
  | PStr s => Path_of_string s
  | PPath p => p
  end.

(** [Path(j)] on a JSON value: only strings are path-like. *)
Definition Path_of_json (j : json) : result Path :=
  match j with
  | JStr s => Ok (Path_of_string s)
  | _ => Raise TypeError
  end.

(** [p / q]: an absolute right operand replaces the left one. *)
Definition joinpath (p q : Path) : Path :=
  if absolute q then q else mkPath (absolute p) (parts p ++ parts q).
Infix "</>" := joinpath (at level 40, left associativity).

Fixpoint is_prefix (l k : list string) : bool :=
  match l, k with
  | [], _ => true
  | x :: l', y :: k' => String.eqb x y && is_prefix l' k'
  | _ :: _, [] => false
  end.

(** [p.is_relative_to(other)]: a comparison of components, nothing is
    looked up on disk. *)
Definition is_relative_to (p other : Path) : bool :=
  Bool.eqb (absolute p) (absolute other) && is_prefix (parts other) (parts p).

(** [p.relative_to(other)] *)
Definition relative_to (p other : Path) : result Path :=
  if is_relative_to p other
  then Ok (mkPath false (drop (length (parts other)) (parts p)))
  else Raise ValueError.

(** [str(p)] *)
Definition str (p : Path) : string :=
  if absolute p then "/" +:+ String.concat "/" (parts p)
  else match parts p with
       | [] => "."
       | _ => String.concat "/" (parts p)
       end.

(* ===================================================================== *)
(** ** The environment of the server *)
(* ===================================================================== *)

(** The file system behind [Path.resolve] and [Path.expanduser].
    [resolve] returns an absolute path and a resolved path resolves to
    itself; [resolve] may raise (a symbolic-link loop, an embedded NUL). *)
Class FileSystem : Type := {
  gethomedir : string → option Path;
  resolve : Path → result Path;
  resolve_absolute : ∀ p q, resolve p = Ok q → absolute q = true;
  resolve_canonical : ∀ p q, resolve p = Ok q → resolve q = Ok q;
}.

(** [datetime] with [isoformat] and the parser pydantic applies to a
    [datetime] field; what [isoformat] prints parses back to the same
    instant. *)
Class DateTime : Type := {
  datetime : Type;
  isoformat : datetime → string;
  parse_datetime : json → option datetime;
  parse_isoformat : ∀ d, parse_datetime (JStr (isoformat d)) = Some d;
}.

(** The two module-level directories: [ROOT] (from [LINTAI_SRC_CODE_ROOT]
    or the working directory) and [DATA_DIR] (under the temporary
    directory). *)
Class Workspace : Type := {
  ROOT : Path;
  DATA_DIR : Path;
}.

(** [Path.expanduser]: only a relative path whose first component starts
    with [~] is changed. *)
Definition expanduser `{FileSystem} (p : Path) : result Path :=
  if absolute p then Ok p
  else match parts p with
       | String "~"%char user :: rest =>
           match gethomedir user with
           | Some home => Ok (home </> mkPath false rest)
           | None => Raise RuntimeError
           end
       | _ => Ok p
       end.

(* ===================================================================== *)
(** ** The models of the server *)
(* ===================================================================== *)

Inductive RunType : Type := scan | inventory.

Inductive Status : Type := pending | done | error.

#[global] Instance RunType_eq_dec : EqDecision RunType.
Proof. solve_decision. Defined.

#[global] Instance Status_eq_dec : EqDecision Status.
Proof. solve_decision. Defined.

Definition RunType_value (t : RunType) : string :=
  match t with
  | scan => "scan"
  | inventory => "inventory"
  end.

Definition RunType_of_value (s : string) : option RunType :=
  if String.eqb s "scan" then Some scan
  else if String.eqb s "inventory" then Some inventory
  else None.

Definition Status_value (s : Status) : string :=
  match s with
  | pending => "pending"
  | done => "done"
  | error => "error"
  end.

Definition Status_of_value (s : string) : option Status :=
  if String.eqb s "pending" then Some pending
  else if String.eqb s "done" then Some done
  else if String.eqb s "error" then Some error
  else None.

(** The statuses [_set_status] is called with. *)
Definition terminal (s : Status) : bool :=
  match s with
  | pending => false
  | done | error => true
  end.

(** The files below [DATA_DIR], each with the JSON value it holds; a path
    outside the map is a file that does not exist. *)
Abbreviation Disk := (gmap Path json).

Section Server.
Context `{FileSystem} `{DateTime} `{Workspace}.

Record RunSummary : Type := mkRun {
  run_id : string;
  type : RunType;
  created : datetime;
  status : Status;
  path : string;
}.

(** [r.status = st] *)
Definition with_status (r : RunSummary) (st : Status) : RunSummary :=
  mkRun (run_id r) (type r) (created r) st (path r).

(** [r.model_dump()] as [_json_dump] writes it: the enumeration member by
    its value, the timestamp through [isoformat]. *)
Definition model_dump (r : RunSummary) : json :=
  JObj (<["run_id" := JStr (run_id r)]>
        (<["type" := JStr (RunType_value (type r))]>
        (<["created" := JStr (isoformat (created r))]>
        (<["status" := JStr (Status_value (status r))]>
        (<["path" := JStr (path r)]> ∅))))).

(** [RunSummary.model_validate(j)]: the five fields must be present and
    of their types; other keys are ignored. *)
Definition model_validate (j : json) : result RunSummary :=
  match j with
  | JObj kv =>
      match kv !! "run_id", kv !! "type", kv !! "created",
            kv !! "status", kv !! "path" with
      | Some (JStr rid), Some (JStr ty), Some c, Some (JStr st), Some (JStr p) =>
          match RunType_of_value ty, parse_datetime c, Status_of_value st with
          | Some ty, Some c, Some st => Ok (mkRun rid ty c st p)
          | _, _, _ => Raise ValidationError
          end
      | _, _, _, _, _ => Raise ValidationError
      end
  | _ => Raise ValidationError
  end.

(* --------------------------------------------------------------------- *)
(** *** Files *)

Definition RUNS_FILE : Path := DATA_DIR </> Path_of_string "runs.json".

Definition _json_load (disk : Disk) (p : Path) (dflt : json) : json :=
  match disk !! p with
  | Some j => j
  | None => dflt
  end.

Definition _json_dump (p : Path) (obj : json) (disk : Disk) : Disk :=
  <[p := obj]> disk.

(* --------------------------------------------------------------------- *)
(** *** Run-index helpers *)

Definition _runs (disk : Disk) : result (list RunSummary) :=
  let* items := py_iter (_json_load disk RUNS_FILE (JArr [])) in
  for_each model_validate items.

(** [_save_runs] accepts [RunSummary] objects or plain dictionaries. *)
Definition serialise (r : RunSummary + json) : json :=
  match r with
  | inl r => model_dump r
  | inr j => j
  end.

Definition _save_runs (lst : list (RunSummary + json)) (disk : Disk) : Disk :=
  _json_dump RUNS_FILE (JArr (serialise <$> lst)) disk.

Definition _add_run (r : RunSummary) (disk : Disk) : result Disk :=
  let* lst := _runs disk in
  Ok (_save_runs (inl <$> (lst ++ [r])) disk).

(** A sequence of [_add_run] calls, as successive submissions make them. *)
Fixpoint add_runs (rs : list RunSummary) (disk : Disk) : result Disk :=
  match rs with
  | [] => Ok disk
  | r :: rest =>
      let* disk' := _add_run r disk in
      add_runs rest disk'
  end.

(** The loop of [_set_status]: the first record with the id gets the
    status, then [break]. *)
Fixpoint set_first (rid : string) (st : Status) (lst : list RunSummary)
  : list RunSummary :=
  match lst with
  | [] => []
  | r :: rest =>
      if String.eqb (run_id r) rid then with_status r st :: rest
      else r :: set_first rid st rest
  end.

Definition _set_status (rid : string) (st : Status) (disk : Disk) : result Disk :=
  let* lst := _runs disk in
  Ok (_save_runs (inl <$> set_first rid st lst) disk).

(** One sub-directory per run id, one file name per run type.  (The
    [mkdir] of the sub-directory creates no file.) *)
Definition _report_path (rid : string) (kind : RunType) : Path :=
  let subdir := DATA_DIR </> Path_of_string rid in
  match kind with
  | scan => subdir </> Path_of_string "scan_report.json"
  | inventory => subdir </> Path_of_string "inventory.json"
  end.

(* --------------------------------------------------------------------- *)
(** *** [_safe] *)

Definition _safe (path : pathlike) : result Path :=
  let* q := expanduser (Path_of_pathlike path) in
  let* p := resolve (ROOT </> q) in
  if negb (is_relative_to p ROOT) then Raise (HTTPException 403)
  else Ok p.

(* --------------------------------------------------------------------- *)
(** *** [results] *)

(** The body of the loop over the findings: the location is replaced when
    it is truthy and resolves below [base]; any exception of the
    conversion leaves the finding as it is. *)
Definition relocate (base : Path) (f : json) : result json :=
  let* loc := dict_get f "location" JNull in
  if negb (truthy loc) then Ok f
  else try_except
         (let* p := Path_of_json loc in
          let* q := resolve p in
          let* rel := relative_to q base in
          setitem f "location" (JStr (str rel)))
         (Ok f).

Definition results (disk : Disk) (rid : string) : result json :=
  let* lst := _runs disk in
  match List.find (λ r, String.eqb (run_id r) rid) lst with
  | None => Raise (HTTPException 404)
  | Some run =>
      match disk !! _report_path rid (type run) with
      | None => Ok (JObj {["status" := JStr "pending"]})
      | Some data =>
          match type run with
          | scan =>
              let* findings := dict_get data "findings" JNull in
              match findings with
              | JNull => Raise (HTTPException 500)
              | _ =>
                  let* base := resolve (DATA_DIR </> Path_of_string rid) in
                  let* fs := py_iter findings in
                  let* fs' := for_each (relocate base) fs in
                  match findings with
                  | JArr _ => setitem data "findings" (JArr fs')
                  | _ => Ok data
                  end
              end
          | inventory => Ok data
          end
      end
  end.

(* --------------------------------------------------------------------- *)
(** *** [filter_scan] *)

(** One [if c: findings = [f for f in findings if test(f)]] step. *)
Definition filter_step (c : option string) (test : string → json → result bool)
    (findings : json) : result json :=
  match given c with
  | Some s =>
      let* fs := py_iter findings in
      let* kept := filter_by (test s) fs in
      Ok (JArr kept)
  | None => Ok findings
  end.

Definition severity_test (severity : string) (f : json) : result bool :=
  let* v := dict_get f "severity" JNull in
  Ok (eq_str v severity).

Definition owasp_test (owasp_id : string) (f : json) : result bool :=
  let* v := dict_get f "owasp_id" (JStr "") in
  py_in owasp_id v.

Definition component_test (component : string) (f : json) : result bool :=
  let* v := dict_get f "location" (JStr "") in
  py_in component v.

Definition filter_scan (disk : Disk) (rid : string)
    (severity owasp_id component : option string) : result json :=
  let* data := results disk rid in
  let* st := dict_get data "status" JNull in
  if eq_str st "pending" then Ok data
  else
    let* ty := getitem data "type" in
    if negb (eq_str ty "scan") then Raise (HTTPException 400)
    else
      let* findings := dict_get data "findings" (JArr []) in
      let* findings := filter_step severity severity_test findings in
      let* findings := filter_step owasp_id owasp_test findings in
      let* findings := filter_step component component_test findings in
      setitem data "findings" findings.

End Server.

Arguments RunSummary {_}.
Arguments mkRun {_}.

(* --------------------------------------------------------------------- *)
(** *** [subgraph] *)

Section Subgraph.
Context `{Countable K}.

(** A node with its identifier and an edge with its two ends; [label]
    stands for the attributes the helper passes through. *)
Record Node : Type := mkNode { node_id : K; node_label : string }.
Record Edge : Type := mkEdge { source : K; target : K; edge_label : string }.

(** One round of the loop: the set comprehension over the edges. *)
Definition expand (edges : list Edge) (frontier : gset K) : gset K :=
  list_to_set
    ((λ e, if decide (target e ∈ frontier) then source e else target e)
     <$> filter (λ e, source e ∈ frontier ∨ target e ∈ frontier) edges).

(** [for _ in range(depth)] with the two variables it updates. *)
Fixpoint rounds (edges : list Edge) (depth : nat) (frontier keep : gset K)
  : gset K :=
  match depth with
  | O => keep
  | S n =>
      let frontier' := expand edges frontier in
      rounds edges n frontier' (keep ∪ frontier')
  end.

(** The helper from [frontier = {node}] on, given the node and edge lists
    it reads from the report ([n["id"]], [e["source"]] and [e["target"]]
    are the record fields); [depth] is between 1 and 5 by the declaration
    of the query parameter. *)
Definition subgraph (nodes : list Node) (edges : list Edge) (node : K)
    (depth : nat) : list Node * list Edge :=
  let keep := rounds edges depth {[node]} {[node]} in
  (filter (λ n, node_id n ∈ keep) nodes,
   filter (λ e, source e ∈ keep ∧ target e ∈ keep) edges).

End Subgraph.

Arguments Node K : clear implicits.
Arguments Edge K : clear implicits.

(* ===================================================================== *)
(** ** The properties stated about the server *)
(* ===================================================================== *)

(** The notions the design document uses for the results of [results],
    [filter_scan] and [subgraph]; the theorems below relate the
    definitions above to them. *)

(* --------------------------------------------------------------------- *)
(** *** Locations inside the sub-directory of a run *)

(** The location of the finding [mf] is a non-empty string that resolves
    to [q], and [q] lies under [base]. *)
Definition resolves_inside `{FileSystem} (base : Path)
    (mf : gmap string json) (q : Path) : Prop :=
  ∃ s, mf !! "location" = Some (JStr s)
       ∧ s ≠ ""
       ∧ resolve (Path_of_string s) = Ok q
       ∧ is_relative_to q base = true.

(** What the finding [f] becomes: the location made relative to [base]
    when it resolves inside, [f] itself otherwise. *)
Definition relocated `{FileSystem} (base : Path) (f f' : json) : Prop :=
  ∃ mf, f = JObj mf
        ∧ ((∃ q, resolves_inside base mf q
                 ∧ f' = JObj (<["location" :=
                          JStr (str (mkPath false
                                      (drop (length (parts base)) (parts q))))]>
                          mf))
           ∨ ((¬ ∃ q, resolves_inside base mf q) ∧ f' = f)).

(* --------------------------------------------------------------------- *)
(** *** Findings that satisfy the criteria *)

(** [f.get(k)] of a finding, [None] when the key is missing. *)
Definition field (f : json) (k : string) : option json :=
  match f with
  | JObj mf => mf !! k
  | _ => None
  end.

(** The text of an optional string field, empty when it is missing. *)
Definition text_of (o : option json) : string :=
  match o with
  | Some (JStr s) => s
  | _ => ""
  end.

Definition severity_is (s : string) (f : json) : bool :=
  is_str s (default JNull (field f "severity")).

Definition owasp_has (s : string) (f : json) : bool :=
  contains s (text_of (field f "owasp_id")).

Definition component_has (s : string) (f : json) : bool :=
  contains s (text_of (field f "location")).

(** A criterion that is not provided accepts every finding. *)
Definition when (c : option string) (p : string → json → bool) (f : json)
  : bool :=
  match c with
  | Some s => p s f
  | None => true
  end.

(** The conjunction of the provided criteria. *)
Definition satisfies (severity owasp_id component : option string) (f : json)
  : bool :=
  when severity severity_is f
  && when owasp_id owasp_has f
  && when component component_has f.

(** A finding as the report format has it: an object whose category and
    location, when present, are strings. *)
Definition text_or_missing (o : option json) : Prop :=
  match o with
  | None | Some (JStr _) => True
  | Some _ => False
  end.

Definition finding_ok (f : json) : Prop :=
  ∃ mf, f = JObj mf
        ∧ text_or_missing (mf !! "owasp_id")
        ∧ text_or_missing (mf !! "location").

(* --------------------------------------------------------------------- *)
(** *** Nodes within a number of hops *)

Section Reach.
Context `{Countable K}.
Implicit Types (edges : list (Edge K)) (u v seed : K).

(** [u] and [v] are the two ends of some edge, in either direction. *)
Definition adjacent edges u v : Prop :=
  ∃ e, e ∈ edges
       ∧ ((source e = u ∧ target e = v) ∨ (source e = v ∧ target e = u)).

(** [v] can be reached from [seed] in at most [d] hops along edges taken
    in either direction. *)
Inductive within edges seed : nat → K → Prop :=
| within_seed d : within edges seed d seed
| within_hop d u v :
    within edges seed d u → adjacent edges u v → within edges seed (S d) v.

(** The frontier after [i] rounds. *)
Definition frontier_at edges seed (i : nat) : gset K :=
  Nat.iter i (expand edges) {[seed]}.

End Reach.

(* ===================================================================== *)
(** ** A concrete environment *)
(* ===================================================================== *)

(** A file system without symbolic links: [resolve] prepends the working
    directory to a relative path and removes [..] components; a component
    with a NUL character is refused. *)
Module Lexical.

Fixpoint normalise (stack : list string) (ps : list string) : list string :=
  match ps with
  | [] => rev stack
  | p :: rest =>
      if String.eqb p ".." then normalise (tail stack) rest
      else normalise (p :: stack) rest
  end.

Definition has_nul (s : string) : bool :=
  contains (String zero EmptyString) s.

Definition clean (s : string) : bool :=
  negb (String.eqb s "..") && negb (has_nul s).

Definition lexical_resolve (cwd : list string) (p : Path) : result Path :=
  if existsb has_nul (parts p) then Raise ValueError
  else Ok (mkPath true
             (normalise (if absolute p then [] else rev cwd) (parts p))).

Lemma normalise_Forall (P : string → Prop) ps : ∀ stack,
  Forall P stack → Forall P ps → Forall P (normalise stack ps).
Proof.
  induction ps as [|p rest IH]; intros stack Hst Hps; simpl.
  - by apply Forall_rev.
  - inversion Hps; subst. destruct (String.eqb p "..").
    + apply IH; [|done]. destruct stack; [done|]. by inversion Hst.
    + apply IH; [by constructor|done].
Qed.

Lemma normalise_no_dotdot ps : ∀ stack,
  Forall (λ p, String.eqb p ".." = false) stack →
  Forall (λ p, String.eqb p ".." = false) (normalise stack ps).
Proof.
  induction ps as [|p rest IH]; intros stack Hst; simpl.
  - by apply Forall_rev.
  - destruct (String.eqb p "..") eqn:E.
    + apply IH. destruct stack; [done|]. by inversion Hst.
    + apply IH. by constructor.
Qed.

Lemma normalise_fixed ps : ∀ stack,
  Forall (λ p, String.eqb p ".." = false) ps →
  normalise stack ps = rev stack ++ ps.
Proof.
  induction ps as [|p rest IH]; intros stack Hps; simpl.
  - by rewrite app_nil_r.
  - inversion Hps as [|?? Hp Hrest]; subst. rewrite Hp.
    rewrite IH by done. simpl. by rewrite <- app_assoc.
Qed.

Lemma existsb_false_Forall {A} (f : A → bool) l :
  existsb f l = false ↔ Forall (λ x, f x = false) l.
Proof.
  induction l as [|x l IH]; simpl.
  - split; [constructor|done].
  - rewrite orb_false_iff, IH. split.
    + intros [??]. by constructor.
    + by inversion 1.
Qed.

Section Laws.
Variable cwd : list string.
Hypothesis cwd_clean : forallb clean cwd = true.

Lemma cwd_Forall (P : string → Prop) :
  (∀ s, clean s = true → P s) → Forall P (rev cwd).
Proof.
  intros HP. apply Forall_rev. apply Forall_forall. intros s Hs.
  apply HP. rewrite forallb_forall in cwd_clean. apply cwd_clean.
  by apply list_elem_of_In.
Qed.

Lemma lexical_absolute p q : lexical_resolve cwd p = Ok q → absolute q = true.
Proof.
  unfold lexical_resolve. destruct (existsb has_nul (parts p)); [done|].
  by intros [= <-].
Qed.

Lemma lexical_canonical p q :
  lexical_resolve cwd p = Ok q → lexical_resolve cwd q = Ok q.
Proof.
  unfold lexical_resolve.
  destruct (existsb has_nul (parts p)) eqn:Hnul; [done|].
  intros [= <-]; simpl.
  apply existsb_false_Forall in Hnul.
  set (stack := if absolute p then [] else rev cwd).
  assert (Forall (λ s, has_nul s = false) stack) as Hst1.
  { subst stack. destruct (absolute p); [constructor|].
    apply cwd_Forall. intros s Hs. unfold clean in Hs.
    apply andb_true_iff in Hs as [_ Hs]. by apply negb_true_iff in Hs. }
  assert (Forall (λ s, String.eqb s ".." = false) stack) as Hst2.
  { subst stack. destruct (absolute p); [constructor|].
    apply cwd_Forall. intros s Hs. unfold clean in Hs.
    apply andb_true_iff in Hs as [Hs _]. by apply negb_true_iff in Hs. }
  pose proof (normalise_Forall _ (parts p) stack Hst1 Hnul) as Hout.
  apply existsb_false_Forall in Hout. rewrite Hout.
  by rewrite (normalise_fixed _ [])
    by (by apply normalise_no_dotdot).
Qed.

End Laws.

(** The server runs in [/srv/app]; the only known user is the current
    one, with home [/home/lintai]. *)
Definition cwd : list string := ["srv"; "app"].

Definition home (user : string) : option Path :=
  if String.eqb user "" then Some (mkPath true ["home"; "lintai"]) else None.

#[export] Instance lexical_fs : FileSystem := {|
  gethomedir := home;
  resolve := lexical_resolve cwd;
  resolve_absolute := lexical_absolute cwd;
  resolve_canonical := lexical_canonical cwd eq_refl;
|}.

(** Timestamps kept as the text [isoformat] prints. *)
#[export] Instance text_datetime : DateTime := {|
  datetime := string;
  isoformat := λ d, d;
  parse_datetime := λ j, match j with JStr s => Some s | _ => None end;
  parse_isoformat := λ d, eq_refl;
|}.

#[export] Instance workspace : Workspace := {|
  ROOT := mkPath true ["srv"; "app"; "workspace"];
  DATA_DIR := mkPath true ["tmp"; "lintai-ui"];
|}.

(* --------------------------------------------------------------------- *)
(** *** Sample registries and reports *)

(** A registry file with one finished scan run, in the concrete
    environment. *)
Definition run_done : RunSummary :=
  mkRun "r1" scan "2024-05-01T10:00:00+00:00" done ".".

Definition run_pending : RunSummary :=
  mkRun "r1" inventory "2024-05-02T08:30:00+00:00" pending "src".

Definition disk_done : Disk := _save_runs [inl run_done] ∅.

(** A scan report of run [r1]: a finding inside the run's sub-directory,
    one outside, and one without location. *)
Definition finding_inside : json :=
  JObj (<["severity" := JStr "high"]>
        (<["owasp_id" := JStr "LLM01"]>
        (<["location" := JStr "/tmp/lintai-ui/r1/src/app.py"]> ∅))).

Definition finding_outside : json :=
  JObj (<["severity" := JStr "low"]>
        (<["owasp_id" := JStr "LLM02"]>
        (<["location" := JStr "/etc/passwd"]> ∅))).

Definition finding_plain : json :=
  JObj (<["severity" := JStr "high"]> (<["owasp_id" := JStr "A03"]> ∅)).

(** Findings whose location cannot be converted: a number, and a string
    with a NUL character. *)
Definition finding_number : json :=
  JObj (<["severity" := JStr "low"]> (<["location" := JNum 7]> ∅)).

Definition finding_nul : json :=
  JObj (<["location" := JStr (String zero "x")]> ∅).

Definition scan_findings : list json :=
  [finding_inside; finding_outside; finding_plain].

Definition scan_fields : gmap string json :=
  <["type" := JStr "scan"]>
  (<["scanned_path" := JStr "."]>
  (<["findings" := JArr scan_findings]> ∅)).

Definition disk_scan : Disk :=
  <[_report_path "r1" scan := JObj scan_fields]> disk_done.

Definition mixed_findings : list json :=
  [finding_inside; finding_number; finding_nul; finding_outside; finding_plain].

Definition mixed_fields : gmap string json :=
  <["type" := JStr "scan"]> (<["findings" := JArr mixed_findings]> ∅).

Definition disk_mixed : Disk :=
  <[_report_path "r1" scan := JObj mixed_fields]> disk_done.

Definition base_r1 : Path := mkPath true ["tmp"; "lintai-ui"; "r1"].

(** [finding_inside] as [results] returns it. *)
Definition finding_inside_read : json :=
  JObj (<["severity" := JStr "high"]>
        (<["owasp_id" := JStr "LLM01"]>
        (<["location" := JStr "src/app.py"]> ∅))).

Definition scan_findings_read : list json :=
  [finding_inside_read; finding_outside; finding_plain].

Definition scan_fields_read : gmap string json :=
  <["findings" := JArr scan_findings_read]> scan_fields.

Definition inside_path : Path :=
  mkPath true ["srv"; "app"; "workspace"; "a"; "c"].

(** An inventory run with a report of the documented shape
    [{graph: {nodes, edges}}]. *)
Definition run_inventory : RunSummary :=
  mkRun "r2" inventory "2024-05-03T09:00:00+00:00" done "src".

Definition inventory_fields : gmap string json :=
  <["graph" := JObj (<["nodes" := JArr []]> (<["edges" := JArr []]> ∅))]> ∅.

Definition disk_inventory : Disk :=
  <[_report_path "r2" inventory := JObj inventory_fields]>
    (_save_runs [inl run_inventory] ∅).

(** The same report with the [type] key [filter_scan] reads. *)
Definition disk_inventory_typed : Disk :=
  <[_report_path "r2" inventory :=
      JObj (<["type" := JStr "inventory"]> inventory_fields)]>
    (_save_runs [inl run_inventory] ∅).

End Lexical.

(** The path graph A - B - C - D. *)
Definition path_nodes : list (Node string) :=
  [mkNode "A" "a"; mkNode "B" "b"; mkNode "C" "c"; mkNode "D" "d"].

Definition path_edges : list (Edge string) :=
  [mkEdge "A" "B" "ab"; mkEdge "B" "C" "bc"; mkEdge "C" "D" "cd"].

(** A graph with an edge whose source is not a listed node. *)
Definition dangling_nodes : list (Node string) := [mkNode "B" "b"].

Definition dangling_edges : list (Edge string) := [mkEdge "A" "B" "ab"].

(* ===================================================================== *)
(** ** The rest of the server: preferences, command line, dispatch,
       history and directory listing *)
(* ===================================================================== *)

From stdpp Require Import pretty sorting.

(* --------------------------------------------------------------------- *)
(** *** [ConfigModel] and its file *)

Record ConfigModel : Type := mkConfig {
  source_path : string;
  ai_call_depth : Z;
  log_level : string;
  ruleset : option string;
  env_file : option string;
}.

(** [ConfigModel()]: every field has a default. *)
Definition ConfigModel_default : ConfigModel :=
  mkConfig "." 2 "INFO" None None.

Definition optional_str (o : option string) : json :=
  match o with
  | Some s => JStr s
  | None => JNull
  end.

(** [cfg.model_dump_json()] *)
Definition config_dump (c : ConfigModel) : json :=
  JObj (<["source_path" := JStr (source_path c)]>
        (<["ai_call_depth" := JNum (ai_call_depth c)]>
        (<["log_level" := JStr (log_level c)]>
        (<["ruleset" := optional_str (ruleset c)]>
        (<["env_file" := optional_str (env_file c)]> ∅))))).

(** A string field with a default. *)
Definition validate_str (kv : gmap string json) (k dflt : string)
  : result string :=
  match kv !! k with
  | None => Ok dflt
  | Some (JStr s) => Ok s
  | Some _ => Raise ValidationError
  end.

(** A [str | None] field, [None] by default. *)
Definition validate_optional_str (kv : gmap string json) (k : string)
  : result (option string) :=
  match kv !! k with
  | None | Some JNull => Ok None
  | Some (JStr s) => Ok (Some s)
  | Some _ => Raise ValidationError
  end.

(** [ai_call_depth: int = Field(2, ge=0)] *)
Definition validate_depth (kv : gmap string json) : result Z :=
  match kv !! "ai_call_depth" with
  | None => Ok 2%Z
  | Some (JNum z) => if (0 <=? z)%Z then Ok z else Raise ValidationError
  | Some _ => Raise ValidationError
  end.

(** [ConfigModel.model_validate_json]: a missing key takes its default,
    a key of the field's JSON type is taken, a negative depth is refused.
    A value of another JSON type is refused here; the conversions that
    pydantic applies to such values are not modelled. *)
Definition config_validate (j : json) : result ConfigModel :=
  match j with
  | JObj kv =>
      let* sp := validate_str kv "source_path" "." in
      let* d := validate_depth kv in
      let* ll := validate_str kv "log_level" "INFO" in
      let* rs := validate_optional_str kv "ruleset" in
      let* ef := validate_optional_str kv "env_file" in
      Ok (mkConfig sp d ll rs ef)
  | _ => Raise ValidationError
  end.

(** A background task: the command and the run id its closure holds. *)
Record Task : Type := mkTask { task_cmd : list string; task_rid : string }.

(** What [subprocess.run(cmd, check=True)] can do: the process ends with
    a return code, or it cannot be started ([OSError]). *)
Inductive process : Type :=
| Exited (returncode : Z)
| NotStarted.

(** How a background task ends: it returns, or an exception leaves it
    (one of the server's, or the [OSError] of the launch). *)
Inductive task_end : Type :=
| Finished (disk : Disk)
| Escaped (e : exn)
| EscapedOSError.

(** One entry of a directory listing. *)
Record Item : Type := mkItem {
  item_name : string;
  item_path : string;
  item_dir : bool;
}.

Record Listing : Type := mkListing { listing_cwd : string; items : list Item }.

(** What [is_dir] and [iterdir] see: whether a path is a directory, and
    the names of its entries. *)
Class Directories : Type := {
  is_dir : Path → bool;
  iterdir : Path → list string;
}.

(** The comparison of [datetime] values.  A value is aware (it has a
    UTC offset) or naive; values of one kind are ordered, totally and
    transitively, and comparing a naive with an aware one raises
    [TypeError]. *)
Class DateTimeOrder `{DateTime} : Type := {
  aware : datetime → bool;
  dt_leb : datetime → datetime → bool;
  dt_leb_total : ∀ a b,
    aware a = aware b → dt_leb a b = true ∨ dt_leb b a = true;
  dt_leb_trans : ∀ a b c,
    aware a = aware b → aware b = aware c →
    dt_leb a b = true → dt_leb b c = true → dt_leb a c = true;
}.

(** [a > b] on [datetime] values. *)
Definition dt_gt `{DateTimeOrder} (a b : datetime) : result bool :=
  if Bool.eqb (aware a) (aware b) then Ok (negb (dt_leb a b))
  else Raise TypeError.



(** [s.removeprefix(pre)] *)
Fixpoint strip_prefix (pre s : string) : option string :=
  match pre with
  | EmptyString => Some s
  | String a pre' =>
      match s with
      | String b s' => if Ascii.eqb a b then strip_prefix pre' s' else None
      | EmptyString => None
      end
  end.

Definition removeprefix (s pre : string) : string :=
  default s (strip_prefix pre s).

(** The order of [sorted] on the entries of one directory: the order of
    their names. *)
Definition name_le (a b : string) : Prop := String.leb a b = true.

#[global] Instance name_le_dec : RelDecision name_le.
Proof. intros a b. unfold name_le. apply _. Defined.

Section Dispatch.
Context `{FileSystem} `{DateTime} `{Workspace}.

Definition CONFIG_JSON : Path := DATA_DIR </> Path_of_string "config.json".
Definition CFG_ENV : Path := DATA_DIR </> Path_of_string "config.env".
Definition SECR_ENV : Path := DATA_DIR </> Path_of_string "secrets.env".

Definition _load_cfg (disk : Disk) : result ConfigModel :=
  match disk !! CONFIG_JSON with
  | Some j => config_validate j
  | None => Ok ConfigModel_default
  end.

Definition _save_cfg (cfg : ConfigModel) (disk : Disk) : Disk :=
  <[CONFIG_JSON := config_dump cfg]> disk.

Definition cfg_get (disk : Disk) : result ConfigModel := _load_cfg disk.

Definition cfg_set (cfg : ConfigModel) (disk : Disk) : ConfigModel * Disk :=
  (cfg, _save_cfg cfg disk).

(** [_env_cli_flags]; [existing] holds the [.env] files that exist. *)
Definition _env_cli_flags (extra_env : option string) (existing : gset Path)
    (disk : Disk) : result (list string) :=
  match given extra_env with
  | Some e => Ok ["-e"; e]
  | None =>
      let* pref := _load_cfg disk in
      match given (env_file pref) with
      | Some f => Ok ["-e"; f]
      | None =>
          if bool_decide (SECR_ENV ∈ existing) then Ok ["-e"; str SECR_ENV]
          else if bool_decide (CFG_ENV ∈ existing) then Ok ["-e"; str CFG_ENV]
          else Ok []
      end
  end.

(** [depth or pref.ai_call_depth]: [None] and [0] are both falsy. *)
Definition depth_or (depth : option Z) (dflt : Z) : Z :=
  match depth with
  | Some d => if (d =? 0)%Z then dflt else d
  | None => dflt
  end.

Definition _common_flags (depth : option Z) (log_level_ : option string)
    (disk : Disk) : result (list string) :=
  let* pref := _load_cfg disk in
  Ok (["-d"; pretty (depth_or depth (ai_call_depth pref));
       "-l"; default (log_level pref) (given log_level_)]
      ++ match ruleset pref with
         | None => []
         | Some r => ["-r"; r]
         end).

(** [bg.add_task(task)] with the task of [_kick]. *)
Definition _kick (cmd : list string) (rid : string) (bg : list Task)
  : list Task :=
  bg ++ [mkTask cmd rid].

(** The task of [_kick], run when the process does [p]: only
    [CalledProcessError] is caught. *)
Definition task (t : Task) (p : process) (disk : Disk) : task_end :=
  match p with
  | Exited rc =>
      match _set_status (task_rid t) (if (rc =? 0)%Z then done else error) disk
      with
      | Ok disk' => Finished disk'
      | Raise e => Escaped e
      end
  | NotStarted => EscapedOSError
  end.

(** [path or _load_cfg().source_path] *)
Definition path_or_source (path_ : option string) (disk : Disk)
  : result string :=
  match given path_ with
  | Some p => Ok p
  | None =>
      let* pref := _load_cfg disk in
      Ok (source_path pref)
  end.

(** The endpoint [inventory] of [/api/inventory] (the name is taken by
    the run type); [rid] is the fresh [uuid4] and [now] the clock
    reading.  It returns the run, the files and the background tasks of
    the request. *)
Definition api_inventory (rid : string) (now : datetime) (path_ : option string)
    (depth : option Z) (log_level_ : option string) (existing : gset Path)
    (disk : Disk) (bg : list Task)
  : result (RunSummary * Disk * list Task) :=
  let out := _report_path rid inventory in
  let* target := path_or_source path_ disk in
  let* common := _common_flags depth log_level_ disk in
  let* env := _env_cli_flags None existing disk in
  let cmd := ["lintai"; "ai-inventory"; target; "--graph"; "--output"; str out]
             ++ common ++ env in
  let bg' := _kick cmd rid bg in
  let* reported := path_or_source path_ disk in
  let run := mkRun rid inventory now pending reported in
  let* disk' := _add_run run disk in
  Ok (run, disk', bg').

(* --------------------------------------------------------------------- *)
(** *** The most recent run and the history *)

Section Latest.
Context `{!DateTimeOrder}.

(** [max(runs, key=lambda r: r.created)]: a later element replaces the
    best one only when its key is greater; a comparison that raises ends
    it. *)
Fixpoint max_created (best : RunSummary) (rest : list RunSummary)
  : result RunSummary :=
  match rest with
  | [] => Ok best
  | r :: rest' =>
      let* greater := dt_gt (created r) (created best) in
      max_created (if greater then r else best) rest'
  end.

(** The answer of [last_result] once the runs are chosen. *)
Definition latest_of (disk : Disk) (runs : list RunSummary)
  : result (option RunSummary * option json) :=
  match runs with
  | [] => Ok (None, None)
  | r :: rest =>
      let* latest_run := max_created r rest in
      Ok (Some latest_run,
          disk !! _report_path (run_id latest_run) (type latest_run))
  end.

Definition last_result (disk : Disk)
  : result (option RunSummary * option json) :=
  let* runs := _runs disk in
  latest_of disk runs.

Definition last_result_by_type (run_type : string) (disk : Disk)
  : result (option RunSummary * option json) :=
  let* runs := _runs disk in
  latest_of disk
    (List.filter (λ r, String.eqb (RunType_value (type r)) run_type) runs).

End Latest.

Record HistoryEntry : Type := mkEntry {
  h_type : RunType;
  h_date : string;
  h_scanned_path : json;
  h_errors : json;
  h_run : RunSummary;
  h_report : option json;
}.

(** The body of the loop of [history]. *)
Definition history_entry (disk : Disk) (run : RunSummary)
  : result HistoryEntry :=
  match disk !! _report_path (run_id run) (type run) with
  | Some report =>
      let* errors := dict_get report "errors" JNull in
      let* scanned_path := dict_get report "scanned_path" JNull in
      Ok (mkEntry (type run) (isoformat (created run)) scanned_path errors
            run (Some report))
  | None =>
      Ok (mkEntry (type run) (isoformat (created run)) JNull JNull run None)
  end.

Definition history (disk : Disk) : result (list HistoryEntry) :=
  let* runs := _runs disk in
  for_each (history_entry disk) runs.

(* --------------------------------------------------------------------- *)
(** *** [list_dir] *)

Section ListDir.
Context `{Directories}.

Definition hidden (name : string) : bool := String.prefix "." name.

Definition list_dir (path_ : option string) : result Listing :=
  let* p := _safe (match given path_ with
                   | Some s => PStr s
                   | None => PPath ROOT
                   end) in
  if negb (is_dir p) then Raise (HTTPException 400)
  else
    let shown :=
      filter (λ name, hidden name = false) (merge_sort name_le (iterdir p)) in
    let item name :=
      let f := p </> Path_of_string name in
      mkItem name (removeprefix (str f) (str ROOT +:+ "/")) (is_dir f) in
    let* cwd :=
      if bool_decide (p = ROOT) then Ok ""
      else let* rel := relative_to p ROOT in Ok (str rel) in
    Ok (mkListing cwd (item <$> shown)).

End ListDir.

End Dispatch.

Arguments HistoryEntry {_}.
Arguments mkEntry {_}.

(* --------------------------------------------------------------------- *)
(** *** The concrete environment, continued *)

(** The order of strings is transitive. *)
Lemma string_compare_le_trans (a : string) : ∀ b c,
  String.compare a b ≠ Gt → String.compare b c ≠ Gt → String.compare a c ≠ Gt.
Proof.
  induction a as [|x a IH]; intros [|y b] [|z c]; simpl; try done.
  unfold Ascii.compare.
  destruct (N.compare_spec (N_of_ascii x) (N_of_ascii y)) as [Hxy|Hxy|Hxy];
    destruct (N.compare_spec (N_of_ascii y) (N_of_ascii z)) as [Hyz|Hyz|Hyz];
    try done;
    destruct (N.compare_spec (N_of_ascii x) (N_of_ascii z)) as [Hxz|Hxz|Hxz];
    try done; try lia.
  apply IH.
Qed.

Lemma string_leb_trans (a b c : string) :
  String.leb a b = true → String.leb b c = true → String.leb a c = true.
Proof.
  unfold String.leb. intros Hab Hbc.
  pose proof (string_compare_le_trans a b c) as Hac.
  destruct (String.compare a b); try done;
    destruct (String.compare b c); try done;
    destruct (String.compare a c); try done; by destruct Hac.
Qed.

#[global] Instance name_le_total : Total name_le.
Proof. intros a b. apply String.leb_total. Qed.

#[global] Instance name_le_trans : Transitive name_le.
Proof. intros a b c. apply string_leb_trans. Qed.

Module LexicalTree.
Import Lexical.

(** Timestamps in the text [isoformat] prints, in UTC ([+00:00]) or
    without offset: a text with an offset is aware, and texts of one kind
    are ordered as strings. *)
#[export] Instance text_order : DateTimeOrder := {|
  aware := contains "+";
  dt_leb := String.leb;
  dt_leb_total := λ a b _, String.leb_total a b;
  dt_leb_trans := λ a b c _ _, string_leb_trans a b c;
|}.

(** The directories below the workspace root [/srv/app/workspace]. *)
Definition tree_is_dir (p : Path) : bool :=
  absolute p &&
  match parts p with
  | ["srv"; "app"; "workspace"]
  | ["srv"; "app"; "workspace"; "src"]
  | ["srv"; "app"; "workspace"; ".git"] => true
  | _ => false
  end.

Definition tree_iterdir (p : Path) : list string :=
  match parts p with
  | ["srv"; "app"; "workspace"] => ["src"; ".git"; "app.py"; "README.md"]
  | ["srv"; "app"; "workspace"; "src"] => ["main.py"; ".cache"; "lib.py"]
  | ["srv"; "app"; "workspace"; ".git"] => ["HEAD"]
  | _ => []
  end.

#[export] Instance tree : Directories := {|
  is_dir := tree_is_dir;
  iterdir := tree_iterdir;
|}.

(** A registry with three runs and the report of the second. *)
Definition run_a : RunSummary :=
  mkRun "a" scan "2024-05-01T10:00:00+00:00" done ".".

Definition run_b : RunSummary :=
  mkRun "b" inventory "2024-05-03T09:00:00+00:00" done "src".

Definition run_c : RunSummary :=
  mkRun "c" scan "2024-05-02T08:30:00+00:00" pending "src".

Definition report_b : json :=
  JObj (<["type" := JStr "inventory"]> (<["scanned_path" := JStr "src"]> ∅)).

Definition disk_three : Disk :=
  <[_report_path "b" inventory := report_b]>
    (_save_runs [inl run_a; inl run_b; inl run_c] ∅).

(** A registry with two records of the same id. *)
Definition disk_twice : Disk := _save_runs [inl run_done; inl run_pending] ∅.

(** A scan report of [r1] whose second entry is not an object. *)
Definition broken_fields : gmap string json :=
  <["type" := JStr "scan"]>
  (<["findings" := JArr ([finding_inside] ++ JStr "oops" :: [finding_plain])]>
     ∅).

Definition disk_broken : Disk :=
  <[_report_path "r1" scan := JObj broken_fields]> disk_done.

(** A scan report of [r1] with a finding whose category is [null] and
    whose location is a number. *)
Definition finding_null_category : json :=
  JObj (<["severity" := JStr "high"]>
        (<["owasp_id" := JNull]> (<["location" := JNum 7]> ∅))).

Definition null_findings : list json := [finding_plain; finding_null_category].

Definition null_fields : gmap string json :=
  <["type" := JStr "scan"]> (<["findings" := JArr null_findings]> ∅).

Definition disk_null : Disk :=
  <[_report_path "r1" scan := JObj null_fields]> disk_done.

(** Preferences, and a preferences file with a negative depth. *)
Definition cfg_sample : ConfigModel :=
  mkConfig "src" 3 "DEBUG" (Some "rules.yml") None.

Definition disk_bad_cfg : Disk :=
  <[CONFIG_JSON := JObj (<["ai_call_depth" := JNum (-1)]> ∅)]> ∅.

(** A registry with a naive timestamp among aware ones. *)
Definition run_naive : RunSummary :=
  mkRun "n" scan "2024-05-04T12:00:00" done ".".

Definition disk_mixed_clocks : Disk :=
  _save_runs [inl run_a; inl run_naive; inl run_c] ∅.

(** A registry file whose second entry lacks most fields. *)
Definition disk_invalid : Disk :=
  <[RUNS_FILE := JArr [model_dump run_done;
                       JObj (<["run_id" := JStr "x"]> ∅)]]> ∅.

(** A clock reading. *)
Definition june_first : @datetime text_datetime := "2024-06-01T00:00:00+00:00".

(** A workspace whose root was given as a relative path. *)
Definition relative_workspace : Workspace := {|
  ROOT := mkPath false ["workspace"];
  DATA_DIR := mkPath true ["tmp"; "lintai-ui"];
|}.

End LexicalTree.

(** The path graph with its middle edge reversed. *)
Definition path_edges_reversed : list (Edge string) :=
  [mkEdge "A" "B" "ab"; mkEdge "C" "B" "bc"; mkEdge "C" "D" "cd"].

(* ===================================================================== *)
(** ** The run registry *)
(* ===================================================================== *)

Section Registry.
Context `{DateTime} `{Workspace}.

Lemma RunType_value_inv t : RunType_of_value (RunType_value t) = Some t.
Proof. by destruct t. Qed.

Lemma Status_value_inv s : Status_of_value (Status_value s) = Some s.
Proof. by destruct s. Qed.

Lemma model_validate_dump r : model_validate (model_dump r) = Ok r.
Proof.
  destruct r as [rid ty c st p]. unfold model_validate, model_dump; simpl.
  repeat (rewrite lookup_insert_eq || (rewrite lookup_insert_ne by done)).
  by rewrite RunType_value_inv, parse_isoformat, Status_value_inv.
Qed.

Lemma for_each_validate_dump (lst : list RunSummary) :
  for_each model_validate (serialise <$> (inl <$> lst)) = Ok lst.
Proof.
  induction lst as [|r lst IH]; [done|].
  cbn [fmap list_fmap for_each serialise]. rewrite model_validate_dump.
  cbn [bind]. fold (@fmap list _ _ _ (@inl RunSummary json)).
  fold (@fmap list _ _ _ serialise). by rewrite IH.
Qed.

Lemma runs_save_runs (lst : list RunSummary) (disk : Disk) :
  _runs (_save_runs (inl <$> lst) disk) = Ok lst.
Proof.
  unfold _runs, _save_runs, _json_load, _json_dump.
  rewrite lookup_insert_eq. simpl. apply for_each_validate_dump.
Qed.

Lemma set_first_Forall2 rid st (lst : list RunSummary) :
  Forall2 (λ r r',
             run_id r' = run_id r
             ∧ (r' = r ∨ (run_id r = rid ∧ r' = with_status r st)))
          lst (set_first rid st lst).
Proof.
  induction lst as [|r lst IH]; simpl; [constructor|].
  destruct (String.eqb (run_id r) rid) eqn:E.
  - apply String.eqb_eq in E. constructor; [by auto|].
    apply Forall2_same_length_lookup_2; [done|].
    intros i x y Hx Hy. assert (x = y) as -> by congruence. auto.
  - constructor; [auto|done].
Qed.

(** C6: saving a list of run records and loading the registry again gives
    the same records in the same order. *)
Theorem save_runs_then_runs_roundtrip (disk : Disk) (lst : list RunSummary) :
  _runs (_save_runs (inl <$> lst) disk) = Ok lst.
Proof.
  unfold _runs, _save_runs, _json_dump, _json_load.
  rewrite lookup_insert_eq. cbn [py_iter bind].
  induction lst as [|r lst IH]; [done|].
  cbn [fmap list_fmap for_each serialise].
  rewrite model_validate_dump; cbn [bind].
  fold (@fmap list _ _ _ (@inl RunSummary json)).
  fold (@fmap list _ _ _ serialise).
  by rewrite IH.
Qed.

Lemma find_set_first rid st (lst : list RunSummary) (r : RunSummary) :
  List.find (λ r, String.eqb (run_id r) rid) lst = Some r →
  List.find (λ r, String.eqb (run_id r) rid) (set_first rid st lst)
  = Some (with_status r st).
Proof.
  induction lst as [|x lst IH]; simpl; [done|].
  destruct (String.eqb (run_id x) rid) eqn:E; simpl.
  - intros [= ->]. by rewrite E.
  - rewrite E. apply IH.
Qed.

(** C1 (amended): [_set_status] with a terminal status succeeds on a
    readable registry and stores that status in the first record with the
    id, whatever its current status.  Every record keeps its id and
    position; a record that was [done] or [error] is still [done] or
    [error] afterwards, and it is unchanged when the call names another id
    or repeats its status. *)
Theorem set_status_keeps_terminal (disk : Disk) (rid : string) (st : Status)
    (lst : list RunSummary) :
  terminal st = true →
  _runs disk = Ok lst →
  ∃ disk' lst',
    _set_status rid st disk = Ok disk'
    ∧ _runs disk' = Ok lst'
    ∧ Forall2 (λ r r',
                 run_id r' = run_id r
                 ∧ (terminal (status r) = true → terminal (status r') = true)
                 ∧ (run_id r ≠ rid ∨ status r = st → r' = r))
              lst lst'
    ∧ (∀ r, List.find (λ r, String.eqb (run_id r) rid) lst = Some r →
            List.find (λ r, String.eqb (run_id r) rid) lst'
            = Some (with_status r st)).
Proof.
  intros Hst Hruns. exists (_save_runs (inl <$> set_first rid st lst) disk).
  exists (set_first rid st lst). split; [|split; [|split]].
  - unfold _set_status. by rewrite Hruns.
  - apply runs_save_runs.
  - eapply Forall2_impl; [apply set_first_Forall2|].
    intros r r' [Hid [-> | [Hrid ->]]]; (split; [done|]); split; try done.
    intros [Hne | Heq]; [done|]. destruct r; simpl in *. by subst.
  - intros r. apply find_set_first.
Qed.

(** C2 (amended): [_add_run] performs no check of the id: on a readable
    registry it always succeeds and appends the record at the end.  The
    ids stay pairwise distinct when the new id is not yet present, and a
    sequence of additions leaves exactly the old records followed by the
    new ones. *)
Theorem add_run_appends (disk : Disk) (lst : list RunSummary) (r : RunSummary)
    (rs : list RunSummary) :
  _runs disk = Ok lst →
  (∃ disk', _add_run r disk = Ok disk' ∧ _runs disk' = Ok (lst ++ [r]))
  ∧ (NoDup (run_id <$> lst) → run_id r ∉ (run_id <$> lst) →
     NoDup (run_id <$> (lst ++ [r])))
  ∧ (∃ disk', add_runs rs disk = Ok disk' ∧ _runs disk' = Ok (lst ++ rs)).
Proof.
  intros Hruns. split; [|split].
  - eexists. unfold _add_run. rewrite Hruns. split; [done|].
    apply runs_save_runs.
  - intros Hnd Hfresh. rewrite fmap_app. apply NoDup_app. split; [done|].
    split; [|apply NoDup_singleton].
    intros x Hx Hx'. apply list_elem_of_singleton in Hx'. by subst.
  - revert disk lst Hruns. induction rs as [|r' rs IH]; intros disk lst Hruns.
    + exists disk. by rewrite app_nil_r.
    + simpl. unfold _add_run at 1. rewrite Hruns. cbn [bind].
      destruct (IH (_save_runs (inl <$> (lst ++ [r'])) disk) (lst ++ [r']))
        as (disk' & Hadd & Hr); [apply runs_save_runs|].
      exists disk'. split; [done|]. by rewrite Hr, <- app_assoc.
Qed.

End Registry.

(* ===================================================================== *)
(** ** The workspace guard *)
(* ===================================================================== *)

Lemma is_prefix_spec (l k : list string) :
  is_prefix l k = true ↔ ∃ suffix, k = l ++ suffix.
Proof.
  revert k. induction l as [|x l IH]; intros k; simpl.
  - split; [by exists k|done].
  - destruct k as [|y k].
    + split; [done|]. by intros [? ?].
    + rewrite andb_true_iff, String.eqb_eq, IH. split.
      * intros [-> [s ->]]. by exists s.
      * intros [s [= -> ->]]. split; [done|]. by exists s.
Qed.

(** [p.is_relative_to(other)] says that [p] is [other] followed by more
    components. *)
Lemma is_relative_to_spec (p other : Path) :
  is_relative_to p other = true ↔
  absolute p = absolute other ∧ ∃ suffix, parts p = parts other ++ suffix.
Proof.
  unfold is_relative_to.
  by rewrite andb_true_iff, Bool.eqb_true_iff, is_prefix_spec.
Qed.

Lemma joinpath_absolute (p q : Path) : absolute q = true → p </> q = q.
Proof. unfold joinpath. by intros ->. Qed.

Section Guard.
Context `{FileSystem} `{Workspace}.

Lemma expanduser_absolute (p : Path) : absolute p = true → expanduser p = Ok p.
Proof. unfold expanduser. by intros ->. Qed.

Lemma safe_unfold (path : pathlike) (q p : Path) :
  expanduser (Path_of_pathlike path) = Ok q →
  resolve (ROOT </> q) = Ok p →
  _safe path = if is_relative_to p ROOT then Ok p
               else Raise (HTTPException 403).
Proof.
  intros Hq Hp. unfold _safe. rewrite Hq; cbn [bind]. rewrite Hp; cbn [bind].
  by destruct (is_relative_to p ROOT).
Qed.

Lemma safe_inv (path : pathlike) (p : Path) :
  _safe path = Ok p →
  ∃ q, expanduser (Path_of_pathlike path) = Ok q
       ∧ resolve (ROOT </> q) = Ok p
       ∧ is_relative_to p ROOT = true.
Proof.
  unfold _safe.
  destruct (expanduser (Path_of_pathlike path)) as [q|] eqn:Hq; [|done].
  cbn [bind]. destruct (resolve (ROOT </> q)) as [p'|] eqn:Hp; [|done].
  cbn [bind]. destruct (is_relative_to p' ROOT) eqn:Hrel; [|done].
  intros [= <-]. by exists q.
Qed.

Lemma safe_raises (path : pathlike) (e : exn) :
  (expanduser (Path_of_pathlike path) = Raise e
   ∨ ∃ q, expanduser (Path_of_pathlike path) = Ok q
          ∧ resolve (ROOT </> q) = Raise e) →
  _safe path = Raise e.
Proof.
  unfold _safe. intros [-> | (q & -> & Hres)]; [done|].
  cbn [bind]. by rewrite Hres.
Qed.

(** C7 (amended): when the input expands and resolves to [p], [_safe]
    returns [p] if [p] lies under [ROOT] and raises the 403 exception
    otherwise, and [p] is absolute and resolved; whatever [_safe] returns
    lies under [ROOT], and [_safe] applied to it returns it again.  An
    input that [expanduser] or [resolve] refuses is answered with the
    exception they raise, not with the 403 exception. *)
Theorem safe_inside_or_forbidden_and_idempotent (path : pathlike) :
  (∀ q p,
     expanduser (Path_of_pathlike path) = Ok q →
     resolve (ROOT </> q) = Ok p →
     absolute p = true ∧ resolve p = Ok p
     ∧ ((is_relative_to p ROOT = true ∧ _safe path = Ok p)
        ∨ (is_relative_to p ROOT = false
           ∧ _safe path = Raise (HTTPException 403))))
  ∧ (∀ p,
       _safe path = Ok p →
       absolute p = true
       ∧ (∃ suffix, parts p = parts ROOT ++ suffix)
       ∧ _safe (PPath p) = Ok p)
  ∧ (∀ e,
       (expanduser (Path_of_pathlike path) = Raise e
        ∨ ∃ q, expanduser (Path_of_pathlike path) = Ok q
               ∧ resolve (ROOT </> q) = Raise e) →
       _safe path = Raise e).
Proof.
  split; [|split].
  - intros q p Hq Hp. split; [by eapply resolve_absolute|].
    split; [by eapply resolve_canonical|].
    rewrite (safe_unfold path q p Hq Hp).
    destruct (is_relative_to p ROOT); [by left|by right].
  - intros p Hsafe. apply safe_inv in Hsafe as (q & Hq & Hp & Hrel).
    pose proof (resolve_absolute _ _ Hp) as Habs.
    split; [done|]. split; [by apply is_relative_to_spec in Hrel as [_ ?]|].
    rewrite (safe_unfold (PPath p) p p).
    + by rewrite Hrel.
    + by apply expanduser_absolute.
    + rewrite joinpath_absolute by done. by eapply resolve_canonical.
  - intros e. apply safe_raises.
Qed.

End Guard.

(* ===================================================================== *)
(** ** The result store *)
(* ===================================================================== *)

Section ResultStore.
Context `{FileSystem} `{DateTime} `{Workspace}.

Lemma truthy_JStr s : truthy (JStr s) = true ↔ s ≠ "".
Proof.
  simpl. rewrite negb_true_iff. split.
  - intros E ->. by rewrite String.eqb_refl in E.
  - intros Hne. by apply String.eqb_neq.
Qed.

Lemma relocated_unchanged (base : Path) (mf : gmap string json) :
  (¬ ∃ q, resolves_inside base mf q) → relocated base (JObj mf) (JObj mf).
Proof. intros Hout. exists mf. split; [done|]. by right. Qed.

Lemma relocate_object (base : Path) (mf : gmap string json) :
  ∃ f', relocate base (JObj mf) = Ok f' ∧ relocated base (JObj mf) f'.
Proof.
  unfold relocate; cbn [dict_get bind].
  destruct (mf !! "location") as [loc|] eqn:Hloc; cbn [default from_option id].
  2:{ exists (JObj mf). split; [done|]. apply relocated_unchanged.
      intros (q & s & Hs & _). congruence. }
  destruct (truthy loc) eqn:Htr; cbn [negb].
  2:{ exists (JObj mf). split; [done|]. apply relocated_unchanged.
      intros (q & s & Hs & Hne & _). apply truthy_JStr in Hne. congruence. }
  destruct loc as [ | b | z | s | l | kv ]; cbn [Path_of_json bind try_except];
    try (exists (JObj mf); split; [done|]; apply relocated_unchanged;
         intros (q & s' & Hs & _); congruence).
  destruct (resolve (Path_of_string s)) as [q|e] eqn:Hres; cbn [bind try_except].
  2:{ exists (JObj mf). split; [done|]. apply relocated_unchanged.
      intros (q & s' & Hs & _ & Hq & _). congruence. }
  unfold relative_to. destruct (is_relative_to q base) eqn:Hrel;
    cbn [bind try_except setitem].
  - eexists. split; [done|]. exists mf. split; [done|]. left.
    exists q. split; [|done]. exists s. split; [done|].
    split; [by apply truthy_JStr|done].
  - exists (JObj mf). split; [done|]. apply relocated_unchanged.
    intros (q' & s' & Hs & _ & Hq & Hin). congruence.
Qed.

Lemma for_each_relocate (base : Path) (fs : list json) :
  Forall (λ f, ∃ mf, f = JObj mf) fs →
  ∃ fs', for_each (relocate base) fs = Ok fs' ∧ Forall2 (relocated base) fs fs'.
Proof.
  induction 1 as [|f fs [mf ->] _ (fs' & Hfs & Hall)].
  - exists []. split; [done|constructor].
  - destruct (relocate_object base mf) as (f' & Hf & Hrel).
    exists (f' :: fs'). cbn [for_each]. rewrite Hf; cbn [bind].
    rewrite Hfs; cbn [bind]. split; [done|by constructor].
Qed.

(** C5: for a scan run whose report file exists and holds a list of
    findings, [results] returns the report with each finding's location
    made relative to the run's sub-directory exactly when the location
    resolves inside it; every other finding (no location, a location that
    cannot be converted or resolved, a location outside) is returned
    unchanged, and [results] does not raise. *)
Theorem results_relocates_inside_only (disk : Disk) (rid : string)
    (lst : list RunSummary) (run : RunSummary) (m : gmap string json)
    (fs : list json) (base : Path) :
  _runs disk = Ok lst →
  List.find (λ r, String.eqb (run_id r) rid) lst = Some run →
  type run = scan →
  disk !! _report_path rid scan = Some (JObj m) →
  m !! "findings" = Some (JArr fs) →
  Forall (λ f, ∃ mf, f = JObj mf) fs →
  resolve (DATA_DIR </> Path_of_string rid) = Ok base →
  ∃ fs',
    results disk rid = Ok (JObj (<["findings" := JArr fs']> m))
    ∧ Forall2 (relocated base) fs fs'.
Proof.
  intros Hruns Hfind Hty Hfile Hfindings Hobjs Hbase.
  destruct (for_each_relocate base fs Hobjs) as (fs' & Hfs & Hall).
  exists fs'. split; [|done].
  unfold results. rewrite Hruns; cbn [bind]. rewrite Hfind, Hty, Hfile.
  cbn [dict_get bind]. rewrite Hfindings; cbn [default from_option id].
  rewrite Hbase; cbn [bind py_iter]. by rewrite Hfs.
Qed.

End ResultStore.

(* ===================================================================== *)
(** ** The findings filter *)
(* ===================================================================== *)

Lemma prefix_spec (n h : string) :
  String.prefix n h = true ↔ ∃ post, h = n +:+ post.
Proof.
  revert h. induction n as [|a n IH]; intros [|b h]; simpl.
  - split; [by exists ""|done].
  - split; [by exists (String b h)|done].
  - split; [done|]. by intros [? ?].
  - destruct (ascii_dec a b) as [->|Hne].
    + rewrite IH. split.
      * intros [post ->]. by exists post.
      * intros [post [= ->]]. by exists post.
    + split; [done|]. intros [post [= ? _]]. congruence.
Qed.

(** [contains] is substring containment. *)
Lemma contains_spec (n h : string) :
  contains n h = true ↔ ∃ pre post, h = pre +:+ n +:+ post.
Proof.
  induction h as [|c h IH]; cbn [contains].
  - rewrite orb_false_r, prefix_spec. split.
    + intros [post Hp]. by exists "", post.
    + intros [[|? pre] [post Hp]]; [by exists post|done].
  - rewrite orb_true_iff, prefix_spec, IH. split.
    + intros [[post Hp] | (pre & post & ->)].
      * by exists "", post.
      * by exists (String c pre), post.
    + intros [[|c' pre] [post Hp]].
      * left. by exists post.
      * right. simpl in Hp. injection Hp as -> ->. by exists pre, post.
Qed.

Lemma is_str_spec (s : string) (j : json) : is_str s j = true ↔ j = JStr s.
Proof.
  destruct j; simpl; try (split; congruence).
  rewrite String.eqb_eq. split; congruence.
Qed.

(** [satisfies] read as the criteria are described: the severity is the
    given string, the category and the location contain the given
    strings. *)
Lemma satisfies_spec (severity owasp_id component : option string) (f : json) :
  satisfies severity owasp_id component f = true ↔
  (∀ s, severity = Some s → field f "severity" = Some (JStr s))
  ∧ (∀ s, owasp_id = Some s →
       ∃ pre post, text_of (field f "owasp_id") = pre +:+ s +:+ post)
  ∧ (∀ s, component = Some s →
       ∃ pre post, text_of (field f "location") = pre +:+ s +:+ post).
Proof.
  unfold satisfies. rewrite !andb_true_iff.
  assert (when severity severity_is f = true ↔
          ∀ s, severity = Some s → field f "severity" = Some (JStr s)) as ->.
  { destruct severity as [s|]; simpl; [|by split].
    unfold severity_is. rewrite is_str_spec. split.
    - intros Hs ? [= <-]. destruct (field f "severity"); simpl in *; congruence.
    - intros Hs. by rewrite (Hs s eq_refl). }
  assert (∀ c p k,
            (∀ s, p s f = contains s (text_of (field f k))) →
            when c p f = true ↔
            ∀ s, c = Some s →
                 ∃ pre post, text_of (field f k) = pre +:+ s +:+ post) as Hsub.
  { intros c p k Hp. destruct c as [s|]; simpl; [|by split].
    rewrite Hp, contains_spec. split.
    - by intros Hs ? [= <-].
    - intros Hs. by apply Hs. }
  rewrite (Hsub owasp_id owasp_has "owasp_id") by done.
  rewrite (Hsub component component_has "location") by done.
  tauto.
Qed.

Lemma filter_by_pure {A} (test : A → result bool) (p : A → bool) (l : list A) :
  Forall (λ x, test x = Ok (p x)) l →
  filter_by test l = Ok (List.filter p l).
Proof.
  induction 1 as [|x l Hx _ IH]; [done|].
  cbn [filter_by List.filter]. rewrite Hx; cbn [bind]. rewrite IH; cbn [bind].
  by destruct (p x).
Qed.

Lemma filter_step_pure (c : option string) (test : string → json → result bool)
    (p : string → json → bool) (fs : list json) :
  Forall (λ f, ∀ s, test s f = Ok (p s f)) fs →
  filter_step c test (JArr fs) = Ok (JArr (List.filter (when (given c) p) fs)).
Proof.
  intros Hall. unfold filter_step. destruct (given c) as [s|]; simpl.
  - rewrite (filter_by_pure _ (p s)); [done|].
    eapply Forall_impl; [exact Hall|]. by intros f Hf.
  - f_equal. f_equal. induction fs as [|f fs IH]; [done|].
    simpl. f_equal. apply IH. by inversion Hall.
Qed.

Lemma Forall_list_filter {A} (P : A → Prop) (p : A → bool) (l : list A) :
  Forall P l → Forall P (List.filter p l).
Proof.
  induction 1 as [|x l Hx _ IH]; simpl; [constructor|].
  destruct (p x); [by constructor|done].
Qed.

Lemma list_filter_filter {A} (p q : A → bool) (l : list A) :
  List.filter q (List.filter p l) = List.filter (λ x, p x && q x) l.
Proof.
  induction l as [|x l IH]; [done|]. simpl.
  destruct (p x); simpl; [|done]. destruct (q x); by rewrite IH.
Qed.

Lemma severity_test_pure (f : json) :
  finding_ok f → ∀ s, severity_test s f = Ok (severity_is s f).
Proof. by intros (mf & -> & _). Qed.

Lemma owasp_test_pure (f : json) :
  finding_ok f → ∀ s, owasp_test s f = Ok (owasp_has s f).
Proof.
  intros (mf & -> & Ho & _) s. unfold owasp_test, owasp_has; simpl.
  destruct (mf !! "owasp_id") as [[]|]; simpl in *; done.
Qed.

Lemma component_test_pure (f : json) :
  finding_ok f → ∀ s, component_test s f = Ok (component_has s f).
Proof.
  intros (mf & -> & _ & Hl) s. unfold component_test, component_has; simpl.
  destruct (mf !! "location") as [[]|]; simpl in *; done.
Qed.

Section Filter.
Context `{FileSystem} `{DateTime} `{Workspace}.

(** [filter_scan] after [results] returned the dictionary [m] that is not
    the pending answer and whose [type] is [ty]. *)
Lemma filter_scan_unfold (disk : Disk) (rid : string)
    (severity owasp_id component : option string) (m : gmap string json)
    (ty : json) :
  results disk rid = Ok (JObj m) →
  m !! "status" ≠ Some (JStr "pending") →
  m !! "type" = Some ty →
  filter_scan disk rid severity owasp_id component =
  if negb (eq_str ty "scan") then Raise (HTTPException 400)
  else
    let* findings := filter_step severity severity_test
                       (default (JArr []) (m !! "findings")) in
    let* findings := filter_step owasp_id owasp_test findings in
    let* findings := filter_step component component_test findings in
    Ok (JObj (<["findings" := findings]> m)).
Proof.
  intros Hres Hst Hty. unfold filter_scan. rewrite Hres; cbn [bind dict_get].
  assert (eq_str (default JNull (m !! "status")) "pending" = false) as ->.
  { apply not_true_iff_false. unfold eq_str. rewrite is_str_spec.
    destruct (m !! "status"); simpl; congruence. }
  cbn [getitem]. rewrite Hty; cbn [bind].
  destruct (negb (eq_str ty "scan")); [done|].
  destruct (filter_step severity _ _) as [f1|]; [|done]; cbn [bind].
  destruct (filter_step owasp_id _ _) as [f2|]; [|done]; cbn [bind].
  by destruct (filter_step component _ _).
Qed.

(** Without a [type] key the lookup [data["type"]] raises. *)
Lemma filter_scan_without_type (disk : Disk) (rid : string)
    (severity owasp_id component : option string) (m : gmap string json) :
  results disk rid = Ok (JObj m) →
  m !! "status" ≠ Some (JStr "pending") →
  m !! "type" = None →
  filter_scan disk rid severity owasp_id component = Raise (KeyError "type").
Proof.
  intros Hres Hst Hty. unfold filter_scan. rewrite Hres; cbn [bind dict_get].
  assert (eq_str (default JNull (m !! "status")) "pending" = false) as ->.
  { apply not_true_iff_false. unfold eq_str. rewrite is_str_spec.
    destruct (m !! "status"); simpl; congruence. }
  cbn [getitem]. by rewrite Hty.
Qed.

(** With a [type] key that is not ["scan"] the answer is the 400
    exception. *)
Lemma filter_scan_wrong_type (disk : Disk) (rid : string)
    (severity owasp_id component : option string) (m : gmap string json)
    (ty : json) :
  results disk rid = Ok (JObj m) →
  m !! "status" ≠ Some (JStr "pending") →
  m !! "type" = Some ty →
  ty ≠ JStr "scan" →
  filter_scan disk rid severity owasp_id component = Raise (HTTPException 400).
Proof.
  intros Hres Hst Hty Hne.
  rewrite (filter_scan_unfold _ _ _ _ _ m ty) by done.
  assert (eq_str ty "scan" = false) as ->; [|done].
  apply not_true_iff_false. unfold eq_str. by rewrite is_str_spec.
Qed.

(** C4 (amended): on a report that [filter_scan] takes for a scan report
    and whose findings are well formed, the answer is the report with its
    findings replaced by those that satisfy every criterion that is
    provided and not the empty string, in their order: the severity is
    compared for equality, the category and the location for containment.
    Without such a criterion the report is returned as it is. *)
Theorem filter_scan_conjunction (disk : Disk) (rid : string)
    (severity owasp_id component : option string) (m : gmap string json)
    (fs : list json) :
  results disk rid = Ok (JObj m) →
  m !! "status" ≠ Some (JStr "pending") →
  m !! "type" = Some (JStr "scan") →
  m !! "findings" = Some (JArr fs) →
  Forall finding_ok fs →
  let chosen := satisfies (given severity) (given owasp_id) (given component) in
  filter_scan disk rid severity owasp_id component
  = Ok (JObj (<["findings" := JArr (List.filter chosen fs)]> m))
  ∧ (∀ f, chosen f = true ↔
       (∀ s, given severity = Some s → field f "severity" = Some (JStr s))
       ∧ (∀ s, given owasp_id = Some s →
            ∃ pre post, text_of (field f "owasp_id") = pre +:+ s +:+ post)
       ∧ (∀ s, given component = Some s →
            ∃ pre post, text_of (field f "location") = pre +:+ s +:+ post))
  ∧ (given severity = None → given owasp_id = None → given component = None →
     filter_scan disk rid severity owasp_id component = Ok (JObj m)).
Proof.
  intros Hres Hst Hty Hfs Hok chosen.
  assert (filter_scan disk rid severity owasp_id component
          = Ok (JObj (<["findings" := JArr (List.filter chosen fs)]> m)))
    as Hfilter.
  { rewrite (filter_scan_unfold _ _ _ _ _ m (JStr "scan")) by done.
    change (eq_str (JStr "scan") "scan") with true; cbn [negb].
    rewrite Hfs; cbn [default from_option id].
    rewrite (filter_step_pure _ _ severity_is); cbn [bind].
    2:{ eapply Forall_impl; [exact Hok|]. apply severity_test_pure. }
    rewrite (filter_step_pure _ _ owasp_has); cbn [bind].
    2:{ apply Forall_list_filter. eapply Forall_impl; [exact Hok|].
        apply owasp_test_pure. }
    rewrite (filter_step_pure _ _ component_has); cbn [bind].
    2:{ do 2 apply Forall_list_filter. eapply Forall_impl; [exact Hok|].
        apply component_test_pure. }
    rewrite !list_filter_filter. do 4 f_equal.
    apply List.filter_ext. intros f. subst chosen. unfold satisfies.
    by rewrite andb_assoc. }
  split; [done|]. split; [intros f; apply satisfies_spec|].
  intros Hs Ho Hc. rewrite Hfilter. subst chosen. rewrite Hs, Ho, Hc.
  assert (List.filter (satisfies None None None) fs = fs) as ->.
  { clear. induction fs as [|f fs IH]; [done|]. simpl. by rewrite IH. }
  by rewrite insert_id.
Qed.

(** C10: an empty string in place of a criterion gives the same answer as
    no criterion, whatever the report; so with only empty strings a scan
    report comes back with its full list of findings. *)
Theorem filter_scan_empty_criterion_is_absent (disk : Disk) (rid : string)
    (severity owasp_id component : option string) :
  filter_scan disk rid (Some "") owasp_id component
  = filter_scan disk rid None owasp_id component
  ∧ filter_scan disk rid severity (Some "") component
    = filter_scan disk rid severity None component
  ∧ filter_scan disk rid severity owasp_id (Some "")
    = filter_scan disk rid severity owasp_id None
  ∧ (∀ m findings,
       results disk rid = Ok (JObj m) →
       m !! "status" ≠ Some (JStr "pending") →
       m !! "type" = Some (JStr "scan") →
       m !! "findings" = Some findings →
       filter_scan disk rid (Some "") None None = Ok (JObj m)
       ∧ filter_scan disk rid None (Some "") None = Ok (JObj m)
       ∧ filter_scan disk rid None None (Some "") = Ok (JObj m)
       ∧ filter_scan disk rid (Some "") (Some "") (Some "") = Ok (JObj m)).
Proof.
  split; [done|]. split; [done|]. split; [done|].
  intros m findings Hres Hst Hty Hfs.
  assert (filter_scan disk rid None None None = Ok (JObj m)) as Hnone.
  { rewrite (filter_scan_unfold _ _ _ _ _ m (JStr "scan")) by done.
    change (eq_str (JStr "scan") "scan") with true; cbn [negb].
    unfold filter_step; cbn [given bind]. rewrite Hfs.
    cbn [default from_option id]. by rewrite insert_id. }
  done.
Qed.

End Filter.

(* ===================================================================== *)
(** ** The inventory sub-graph helper *)
(* ===================================================================== *)

Section Neighbourhood.
Context `{Countable K}.
Implicit Types (nodes : list (Node K)) (edges : list (Edge K)).
Implicit Types (frontier keep : gset K) (u v seed : K).

Lemma elem_of_expand edges frontier v :
  v ∈ expand edges frontier ↔
  ∃ e, e ∈ edges
       ∧ (source e ∈ frontier ∨ target e ∈ frontier)
       ∧ v = if decide (target e ∈ frontier) then source e else target e.
Proof.
  unfold expand. rewrite elem_of_list_to_set, list_elem_of_fmap. split.
  - intros (e & -> & He). apply list_elem_of_filter in He as [Hin He]. eauto.
  - intros (e & He & Hin & ->). exists e. split; [done|].
    by apply list_elem_of_filter.
Qed.

(** Whatever a round adds is one edge away from the frontier. *)
Lemma expand_sound edges frontier v :
  v ∈ expand edges frontier → ∃ u, u ∈ frontier ∧ adjacent edges u v.
Proof.
  rewrite elem_of_expand. intros (e & He & Hends & ->).
  destruct (decide (target e ∈ frontier)) as [Ht|Ht].
  - exists (target e). split; [done|]. exists e. split; [done|]. by right.
  - destruct Hends as [Hs|Hs]; [|done].
    exists (source e). split; [done|]. exists e. split; [done|]. by left.
Qed.

(** A neighbour of a frontier node is in the frontier already or in the
    next one: the only end a round leaves out is a target that is in the
    current frontier. *)
Lemma expand_complete edges frontier u v :
  u ∈ frontier → adjacent edges u v →
  v ∈ frontier ∨ v ∈ expand edges frontier.
Proof.
  intros Hu (e & He & [[Hs Ht] | [Hs Ht]]).
  - destruct (decide (v ∈ frontier)) as [Hv|Hv]; [by left|right].
    apply elem_of_expand. exists e. split; [done|].
    split; [left; by rewrite Hs|].
    rewrite decide_False by (by rewrite Ht). done.
  - right. apply elem_of_expand. exists e. split; [done|].
    split; [right; by rewrite Ht|].
    rewrite decide_True by (by rewrite Ht). done.
Qed.

Lemma elem_of_rounds edges (n : nat) : ∀ frontier keep v,
  v ∈ rounds edges n frontier keep ↔
  v ∈ keep ∨ ∃ i, (1 ≤ i ≤ n)%nat ∧ v ∈ Nat.iter i (expand edges) frontier.
Proof.
  induction n as [|n IH]; intros frontier keep v; cbn [rounds].
  - split; [by left|]. intros [?|(i & ? & _)]; [done|lia].
  - rewrite IH, elem_of_union. split.
    + intros [[Hk|Hf]|(i & Hi & Hv)].
      * by left.
      * right. exists 1%nat. split; [lia|done].
      * right. exists (S i). split; [lia|]. by rewrite Nat.iter_succ_r.
    + intros [Hk|(i & Hi & Hv)]; [by left; left|].
      destruct i as [|[|i]]; [lia| |].
      * left. by right.
      * right. exists (S i). split; [lia|]. by rewrite <- Nat.iter_succ_r.
Qed.

Lemma within_le edges seed (d d' : nat) v :
  within edges seed d v → (d ≤ d')%nat → within edges seed d' v.
Proof.
  intros Hw. revert d'. induction Hw as [d|d u v _ IH Hadj]; intros d' Hle.
  - constructor.
  - destruct d' as [|d']; [lia|].
    eapply within_hop; [|done]. apply IH. lia.
Qed.

Lemma frontier_at_within edges seed (i : nat) : ∀ v,
  v ∈ frontier_at edges seed i → within edges seed i v.
Proof.
  induction i as [|i IH]; intros v; unfold frontier_at; simpl.
  - rewrite elem_of_singleton. intros ->. constructor.
  - intros Hv. apply expand_sound in Hv as (u & Hu & Hadj).
    eapply within_hop; [|done]. by apply IH.
Qed.

Lemma within_frontier_at edges seed (d : nat) v :
  within edges seed d v → ∃ i, (i ≤ d)%nat ∧ v ∈ frontier_at edges seed i.
Proof.
  induction 1 as [d|d u v _ (i & Hi & Hu) Hadj].
  - exists 0%nat. split; [lia|]. by apply elem_of_singleton.
  - destruct (expand_complete edges _ u v Hu Hadj) as [Hv|Hv].
    + exists i. split; [lia|done].
    + exists (S i). split; [lia|done].
Qed.

(** The set [keep] at the end of the loop is the set of nodes within
    [depth] hops of the start node. *)
Lemma keep_spec edges seed (depth : nat) v :
  v ∈ rounds edges depth {[seed]} {[seed]} ↔ within edges seed depth v.
Proof.
  rewrite elem_of_rounds. split.
  - intros [Hv|(i & Hi & Hv)].
    + apply elem_of_singleton in Hv as ->. constructor.
    + apply (within_le _ _ i); [|lia]. by apply frontier_at_within.
  - intros Hw. apply within_frontier_at in Hw as (i & Hi & Hv).
    destruct i as [|i]; [by left|]. right. exists (S i). split; [lia|done].
Qed.

Lemma subgraph_induced nodes edges seed (depth : nat) :
  ∃ keep,
    (∀ v, v ∈ keep ↔ within edges seed depth v)
    ∧ subgraph nodes edges seed depth
      = (filter (λ n, node_id n ∈ keep) nodes,
         filter (λ e, source e ∈ keep ∧ target e ∈ keep) edges).
Proof.
  exists (rounds edges depth {[seed]} {[seed]}). split; [|done].
  intros v. apply keep_spec.
Qed.

Lemma filter_none {A} (P : A → Prop) `{∀ x, Decision (P x)} (l : list A) :
  (∀ x, x ∈ l → ¬ P x) → filter P l = [].
Proof.
  induction l as [|x l IH]; intros Hnone; [done|].
  rewrite filter_cons_False by (apply Hnone; left).
  apply IH. intros y Hy. apply Hnone. by right.
Qed.

(** Nothing but the start node is within reach when no edge touches it. *)
Lemma within_isolated edges seed (d : nat) v :
  (∀ e, e ∈ edges → source e ≠ seed ∧ target e ≠ seed) →
  within edges seed d v → v = seed.
Proof.
  intros Hiso. induction 1 as [d|d u v _ -> (e & He & Hends)]; [done|].
  destruct (Hiso e He) as [Hs Ht]. destruct Hends as [[? _]|[_ ?]]; done.
Qed.

Lemma keep_isolated edges seed (depth : nat) v :
  (∀ e, e ∈ edges → source e ≠ seed ∧ target e ≠ seed) →
  v ∈ rounds edges depth {[seed]} {[seed]} → v = seed.
Proof. intros Hiso Hv. apply keep_spec in Hv. by eapply within_isolated. Qed.

(** C9 (amended): when the start node is not the id of a node and not an
    end of an edge, the helper returns no node and no edge. *)
Theorem subgraph_unknown_seed_is_empty nodes edges seed (depth : nat) :
  seed ∉ (node_id <$> nodes) →
  (∀ e, e ∈ edges → source e ≠ seed ∧ target e ≠ seed) →
  subgraph nodes edges seed depth = ([], []).
Proof.
  intros Hseed Hiso. unfold subgraph. f_equal; apply filter_none.
  - intros n Hn Hin. apply (keep_isolated _ _ _ _ Hiso) in Hin.
    apply Hseed. rewrite <- Hin. by apply list_elem_of_fmap_2.
  - intros e He [Hin _]. apply (keep_isolated _ _ _ _ Hiso) in Hin.
    by destruct (Hiso e He).
Qed.

(** In a graph whose edges join listed nodes, a start node that is not
    listed is on no edge, and the result is empty as well. *)
Lemma subgraph_unknown_seed_closed_graph nodes edges seed (depth : nat) :
  (∀ e, e ∈ edges →
        source e ∈ (node_id <$> nodes) ∧ target e ∈ (node_id <$> nodes)) →
  seed ∉ (node_id <$> nodes) →
  subgraph nodes edges seed depth = ([], []).
Proof.
  intros Hclosed Hseed.
  assert (∀ e, e ∈ edges → source e ≠ seed ∧ target e ≠ seed) as Hiso.
  { intros e He. destruct (Hclosed e He) as [Hs Ht].
    split; intros Heq; apply Hseed; by rewrite <- Heq. }
  unfold subgraph. f_equal; apply filter_none.
  - intros n Hn Hin. apply (keep_isolated _ _ _ _ Hiso) in Hin.
    apply Hseed. rewrite <- Hin. by apply list_elem_of_fmap_2.
  - intros e He [Hin _]. apply (keep_isolated _ _ _ _ Hiso) in Hin.
    by destruct (Hiso e He).
Qed.

End Neighbourhood.

(** C3: the helper returns the nodes whose id is within [depth] hops of
    the start node, edges taken in either direction, and the edges with
    both ends among them, in the order of the report; on the path graph
    A - B - C - D from A, depth 1 gives A, B with the edge A - B and depth 2
    gives A, B, C with the edges A - B and B - C. *)
Theorem subgraph_is_induced_neighbourhood :
  (∀ (nodes : list (Node string)) (edges : list (Edge string))
     (seed : string) (depth : nat),
     ∃ keep : gset string,
       (∀ v, v ∈ keep ↔ within edges seed depth v)
       ∧ subgraph nodes edges seed depth
         = (filter (λ n, node_id n ∈ keep) nodes,
            filter (λ e, source e ∈ keep ∧ target e ∈ keep) edges))
  ∧ subgraph path_nodes path_edges "A" 1
    = ([mkNode "A" "a"; mkNode "B" "b"], [mkEdge "A" "B" "ab"])
  ∧ subgraph path_nodes path_edges "A" 2
    = ([mkNode "A" "a"; mkNode "B" "b"; mkNode "C" "c"],
       [mkEdge "A" "B" "ab"; mkEdge "B" "C" "bc"]).
Proof.
  split; [intros; apply subgraph_induced|].
  split; vm_compute; reflexivity.
Qed.

(* ===================================================================== *)
(** ** More on the run registry and the result store *)
(* ===================================================================== *)

Section RegistryFiles.
Context `{FileSystem} `{DateTime} `{Workspace}.

Lemma set_first_absent rid st (lst : list RunSummary) :
  rid ∉ (run_id <$> lst) → set_first rid st lst = lst.
Proof.
  induction lst as [|r lst IH]; simpl; [done|].
  intros Hnotin. apply not_elem_of_cons in Hnotin as [Hne Hrest].
  destruct (String.eqb (run_id r) rid) eqn:E.
  - apply String.eqb_eq in E. congruence.
  - by rewrite IH.
Qed.

Lemma set_first_split rid st (pre post : list RunSummary) (r : RunSummary) :
  rid ∉ (run_id <$> pre) → run_id r = rid →
  set_first rid st (pre ++ r :: post) = pre ++ with_status r st :: post.
Proof.
  intros Hpre Hr. induction pre as [|x pre IH]; simpl.
  - by rewrite Hr, String.eqb_refl.
  - cbn [fmap list_fmap] in Hpre.
    apply not_elem_of_cons in Hpre as [Hne Hrest].
    destruct (String.eqb (run_id x) rid) eqn:E.
    + apply String.eqb_eq in E. congruence.
    + by rewrite IH.
Qed.

Lemma find_absent rid (lst : list RunSummary) :
  rid ∉ (run_id <$> lst) →
  List.find (λ r, String.eqb (run_id r) rid) lst = None.
Proof.
  induction lst as [|r lst IH]; simpl; [done|].
  intros Hnotin. apply not_elem_of_cons in Hnotin as [Hne Hrest].
  destruct (String.eqb (run_id r) rid) eqn:E.
  - apply String.eqb_eq in E. congruence.
  - by apply IH.
Qed.

Lemma find_snoc_fresh (lst : list RunSummary) (r : RunSummary) :
  run_id r ∉ (run_id <$> lst) →
  List.find (λ x, String.eqb (run_id x) (run_id r)) (lst ++ [r]) = Some r.
Proof.
  induction lst as [|x lst IH]; simpl.
  - by rewrite String.eqb_refl.
  - intros Hnotin. apply not_elem_of_cons in Hnotin as [Hne Hrest].
    destruct (String.eqb (run_id x) (run_id r)) eqn:E.
    + apply String.eqb_eq in E. congruence.
    + by apply IH.
Qed.

(** The file names below [DATA_DIR] end differently, so the registry, the
    preferences and the reports are different files. *)
Lemma joinpath_name (p : Path) (name : string) :
  Path_of_string name = mkPath false [name] →
  p </> Path_of_string name = mkPath (absolute p) (parts p ++ [name]).
Proof. by intros ->. Qed.

Lemma report_path_parts (rid : string) (kind : RunType) :
  ∃ dir, parts (_report_path rid kind)
         = dir ++ [match kind with
                   | scan => "scan_report.json"
                   | inventory => "inventory.json"
                   end].
Proof.
  unfold _report_path. destruct kind.
  - rewrite (joinpath_name _ "scan_report.json") by done. by eexists.
  - rewrite (joinpath_name _ "inventory.json") by done. by eexists.
Qed.

Lemma report_path_not_runs_file (rid : string) (kind : RunType) :
  _report_path rid kind ≠ RUNS_FILE.
Proof.
  intros Heq. apply (f_equal parts) in Heq.
  destruct (report_path_parts rid kind) as [dir Hparts].
  rewrite Hparts in Heq. unfold RUNS_FILE in Heq.
  rewrite (joinpath_name _ "runs.json") in Heq by done. simpl in Heq.
  apply (f_equal last) in Heq. rewrite !last_snoc in Heq.
  by destruct kind.
Qed.

Lemma report_path_kinds_differ (rid rid' : string) :
  _report_path rid scan ≠ _report_path rid' inventory.
Proof.
  intros Heq. apply (f_equal parts) in Heq.
  destruct (report_path_parts rid scan) as [dir Hparts].
  destruct (report_path_parts rid' inventory) as [dir' Hparts'].
  rewrite Hparts, Hparts' in Heq.
  apply (f_equal last) in Heq. by rewrite !last_snoc in Heq.
Qed.

Lemma runs_insert_other (disk : Disk) (p : Path) (j : json) :
  p ≠ RUNS_FILE → _runs (<[p := j]> disk) = _runs disk.
Proof.
  intros Hne. unfold _runs, _json_load. by rewrite lookup_insert_ne.
Qed.

Lemma save_runs_lookup_other (disk : Disk) (p : Path)
    (lst : list (RunSummary + json)) :
  p ≠ RUNS_FILE → _save_runs lst disk !! p = disk !! p.
Proof.
  intros Hne. unfold _save_runs, _json_dump. by rewrite lookup_insert_ne.
Qed.

(** X1: [_set_status] for an id that no record has does not raise and
    leaves the records of the registry as they were. *)
Theorem set_status_unknown_id_changes_nothing (disk : Disk) (rid : string)
    (st : Status) (lst : list RunSummary) :
  _runs disk = Ok lst →
  rid ∉ (run_id <$> lst) →
  ∃ disk', _set_status rid st disk = Ok disk' ∧ _runs disk' = Ok lst.
Proof.
  intros Hruns Hnotin. eexists. unfold _set_status. rewrite Hruns; cbn [bind].
  split; [done|]. rewrite set_first_absent by done. apply runs_save_runs.
Qed.

(** X2: [_set_status] rewrites exactly one record, the first with the id:
    the records before it, and every record after it (also one with the
    same id), are kept. *)
Theorem set_status_rewrites_first_match_only (disk : Disk) (rid : string)
    (st : Status) (pre post : list RunSummary) (r : RunSummary) :
  _runs disk = Ok (pre ++ r :: post) →
  rid ∉ (run_id <$> pre) →
  run_id r = rid →
  ∃ disk',
    _set_status rid st disk = Ok disk'
    ∧ _runs disk' = Ok (pre ++ with_status r st :: post).
Proof.
  intros Hruns Hpre Hr. eexists. unfold _set_status.
  rewrite Hruns; cbn [bind]. split; [done|].
  rewrite set_first_split by done. apply runs_save_runs.
Qed.

(** X3: a record added with a new id reads back unchanged at the end of
    the registry, and a following [_set_status] on that id gives it the
    status and changes no other record. *)
Theorem add_run_then_set_status (disk : Disk) (lst : list RunSummary)
    (r : RunSummary) (st : Status) :
  _runs disk = Ok lst →
  run_id r ∉ (run_id <$> lst) →
  ∃ disk1 disk2,
    _add_run r disk = Ok disk1
    ∧ List.find (λ x, String.eqb (run_id x) (run_id r)) (lst ++ [r]) = Some r
    ∧ _runs disk1 = Ok (lst ++ [r])
    ∧ _set_status (run_id r) st disk1 = Ok disk2
    ∧ _runs disk2 = Ok (lst ++ [with_status r st]).
Proof.
  intros Hruns Hfresh.
  exists (_save_runs (inl <$> (lst ++ [r])) disk).
  eexists. split; [|split; [|split; [|split]]].
  - unfold _add_run. by rewrite Hruns.
  - by apply find_snoc_fresh.
  - apply runs_save_runs.
  - unfold _set_status. rewrite runs_save_runs. done.
  - rewrite set_first_split by done. apply runs_save_runs.
Qed.

(** X4: the registry and the reports do not touch each other: writing a
    report file leaves [_runs] as it was, [_add_run] and [_set_status]
    leave every report file as it was, and the two reports of one run id
    are different files. *)
Theorem registry_and_reports_are_separate (disk : Disk) (rid : string)
    (kind : RunType) (j : json) :
  _runs (<[_report_path rid kind := j]> disk) = _runs disk
  ∧ (∀ r disk', _add_run r disk = Ok disk' →
       disk' !! _report_path rid kind = disk !! _report_path rid kind)
  ∧ (∀ rid' st disk', _set_status rid' st disk = Ok disk' →
       disk' !! _report_path rid kind = disk !! _report_path rid kind)
  ∧ _report_path rid scan ≠ _report_path rid inventory.
Proof.
  split; [|split; [|split]].
  - apply runs_insert_other, report_path_not_runs_file.
  - intros r disk'. unfold _add_run.
    destruct (_runs disk) as [lst|]; [|done]. intros [= <-].
    apply save_runs_lookup_other, report_path_not_runs_file.
  - intros rid' st disk'. unfold _set_status.
    destruct (_runs disk) as [lst|]; [|done]. intros [= <-].
    apply save_runs_lookup_other, report_path_not_runs_file.
  - apply report_path_kinds_differ.
Qed.


(** X6: for an id that no record has, [results] and [filter_scan] raise
    the 404 exception, whatever files exist. *)
Theorem unknown_run_is_not_found (disk : Disk) (rid : string)
    (lst : list RunSummary) (severity owasp_id component : option string) :
  _runs disk = Ok lst →
  rid ∉ (run_id <$> lst) →
  results disk rid = Raise (HTTPException 404)
  ∧ filter_scan disk rid severity owasp_id component
    = Raise (HTTPException 404).
Proof.
  intros Hruns Hnotin.
  assert (results disk rid = Raise (HTTPException 404)) as Hres.
  { unfold results. rewrite Hruns; cbn [bind]. by rewrite find_absent. }
  split; [done|]. unfold filter_scan. by rewrite Hres.
Qed.

End RegistryFiles.

(* ===================================================================== *)
(** ** More on reading and filtering reports *)
(* ===================================================================== *)

(** A value that [in] cannot search: [None], a boolean or a number. *)
Definition not_searchable (o : option json) : Prop :=
  match o with
  | Some JNull | Some (JBool _) | Some (JNum _) => True
  | _ => False
  end.

Lemma filter_by_sublist {A} (test : A → result bool) (l k : list A) :
  filter_by test l = Ok k → k `sublist_of` l.
Proof.
  revert k. induction l as [|x l IH]; intros k; cbn [filter_by].
  - by intros [= <-].
  - destruct (test x) as [b|]; [|done]; cbn [bind].
    destruct (filter_by test l) as [ys|]; [|done]; cbn [bind].
    intros [= <-]. destruct b.
    + apply sublist_skip. by apply IH.
    + apply sublist_cons. by apply IH.
Qed.

Lemma filter_by_raises {A} (test : A → result bool) (e : exn) (l : list A) :
  Forall (λ x, (∃ b, test x = Ok b) ∨ test x = Raise e) l →
  Exists (λ x, test x = Raise e) l →
  filter_by test l = Raise e.
Proof.
  induction 1 as [|x l Hx Hl IH]; intros Hex; [by inversion Hex|].
  cbn [filter_by]. destruct Hx as [[b Hb]|Hx].
  - rewrite Hb; cbn [bind]. rewrite IH; [done|].
    inversion Hex; subst; [congruence|done].
  - by rewrite Hx.
Qed.

Lemma filter_step_sublist (c : option string)
    (test : string → json → result bool) (fs : list json) (j : json) :
  filter_step c test (JArr fs) = Ok j →
  ∃ kept, j = JArr kept ∧ kept `sublist_of` fs.
Proof.
  unfold filter_step. destruct (given c) as [s|].
  - cbn [py_iter bind].
    destruct (filter_by (test s) fs) as [kept|] eqn:Hk; [|done]; cbn [bind].
    intros [= <-]. exists kept. split; [done|]. by eapply filter_by_sublist.
  - intros [= <-]. by exists fs.
Qed.

Lemma py_in_object_field (s : string) (mf : gmap string json) (k : string) :
  (∃ b, py_in s (default (JStr "") (mf !! k)) = Ok b)
  ∨ py_in s (default (JStr "") (mf !! k)) = Raise TypeError.
Proof.
  destruct (mf !! k) as [[]|]; cbn [default from_option id py_in]; eauto.
Qed.

Lemma py_in_not_searchable (s : string) (mf : gmap string json) (k : string) :
  not_searchable (mf !! k) →
  py_in s (default (JStr "") (mf !! k)) = Raise TypeError.
Proof. by destruct (mf !! k) as [[]|]. Qed.

Section FilterMore.
Context `{FileSystem} `{DateTime} `{Workspace}.

Lemma for_each_relocate_raises (base : Path) (pre post : list json) (x : json) :
  Forall (λ f, ∃ mf, f = JObj mf) pre →
  (∀ mf, x ≠ JObj mf) →
  for_each (relocate base) (pre ++ x :: post) = Raise AttributeError.
Proof.
  intros Hpre Hx. induction Hpre as [|f pre [mf ->] _ IH]; cbn [app for_each].
  - assert (relocate base x = Raise AttributeError) as ->; [|done].
    unfold relocate. destruct x; try done. by destruct (Hx kv).
  - destruct (relocate_object base mf) as (f' & -> & _). cbn [bind].
    by rewrite IH.
Qed.

(** X7: when an entry of the findings list is not an object, [results]
    raises [AttributeError] for the whole report, however well formed the
    entries before it are: the lookup of the location is not inside the
    [try]. *)
Theorem results_fails_on_non_object_finding (disk : Disk) (rid : string)
    (lst : list RunSummary) (run : RunSummary) (m : gmap string json)
    (pre post : list json) (x : json) (base : Path) :
  _runs disk = Ok lst →
  List.find (λ r, String.eqb (run_id r) rid) lst = Some run →
  type run = scan →
  disk !! _report_path rid scan = Some (JObj m) →
  m !! "findings" = Some (JArr (pre ++ x :: post)) →
  Forall (λ f, ∃ mf, f = JObj mf) pre →
  (∀ mf, x ≠ JObj mf) →
  resolve (DATA_DIR </> Path_of_string rid) = Ok base →
  results disk rid = Raise AttributeError.
Proof.
  intros Hruns Hfind Hty Hfile Hfindings Hpre Hx Hbase.
  unfold results. rewrite Hruns; cbn [bind]. rewrite Hfind, Hty, Hfile.
  cbn [dict_get bind]. rewrite Hfindings; cbn [default from_option id].
  rewrite Hbase; cbn [bind py_iter].
  by rewrite for_each_relocate_raises.
Qed.

(** X8: whenever [filter_scan] answers for a report that is not pending,
    the answer is that report with only its findings replaced, and the
    new findings are a sub-list of the old ones: nothing is added,
    reordered or changed, whatever the findings contain. *)
Theorem filter_scan_keeps_a_sublist (disk : Disk) (rid : string)
    (severity owasp_id component : option string) (m : gmap string json)
    (fs : list json) (j : json) :
  results disk rid = Ok (JObj m) →
  m !! "status" ≠ Some (JStr "pending") →
  m !! "findings" = Some (JArr fs) →
  filter_scan disk rid severity owasp_id component = Ok j →
  ∃ kept, j = JObj (<["findings" := JArr kept]> m) ∧ kept `sublist_of` fs.
Proof.
  intros Hres Hst Hfs. destruct (m !! "type") as [ty|] eqn:Hty.
  2:{ by rewrite (filter_scan_without_type _ _ _ _ _ m). }
  rewrite (filter_scan_unfold _ _ _ _ _ m ty) by done.
  destruct (negb (eq_str ty "scan")); [done|].
  rewrite Hfs; cbn [default from_option id].
  destruct (filter_step severity _ _) as [j1|] eqn:E1; [|done]; cbn [bind].
  apply filter_step_sublist in E1 as (k1 & -> & Hk1).
  destruct (filter_step owasp_id _ _) as [j2|] eqn:E2; [|done]; cbn [bind].
  apply filter_step_sublist in E2 as (k2 & -> & Hk2).
  destruct (filter_step component _ _) as [j3|] eqn:E3; [|done]; cbn [bind].
  apply filter_step_sublist in E3 as (k3 & -> & Hk3).
  intros [= <-]. exists k3. split; [done|].
  by repeat (etrans; [eassumption|]).
Qed.

(** X9: a finding whose category is [null], a boolean or a number makes
    [filter_scan] with a category criterion (and no severity criterion)
    raise [TypeError] for the whole request, and so does such a location
    with a component criterion alone; [results] itself reads both
    reports. *)
Theorem filter_scan_raises_on_unsearchable_field (disk : Disk) (rid : string)
    (owasp_id component : option string) (m : gmap string json)
    (fs : list json) (s : string) :
  results disk rid = Ok (JObj m) →
  m !! "status" ≠ Some (JStr "pending") →
  m !! "type" = Some (JStr "scan") →
  m !! "findings" = Some (JArr fs) →
  Forall (λ f, ∃ mf, f = JObj mf) fs →
  (given owasp_id = Some s →
   Exists (λ f, not_searchable (field f "owasp_id")) fs →
   filter_scan disk rid None owasp_id component = Raise TypeError)
  ∧ (given component = Some s →
     Exists (λ f, not_searchable (field f "location")) fs →
     filter_scan disk rid None None component = Raise TypeError).
Proof.
  intros Hres Hst Hty Hfs Hobj.
  assert (∀ c k (test : string → json → result bool),
            (∀ mf, test s (JObj mf) = py_in s (default (JStr "") (mf !! k))) →
            given c = Some s →
            Exists (λ f, not_searchable (field f k)) fs →
            filter_step c test (JArr fs) = Raise TypeError) as Hstep.
  { intros c k test Htest Hc Hex. unfold filter_step. rewrite Hc.
    cbn [py_iter bind]. rewrite (filter_by_raises _ TypeError); [done| |].
    - eapply Forall_impl; [exact Hobj|]. intros f [mf ->].
      rewrite Htest. apply py_in_object_field.
    - clear Hfs. induction Hex as [f fs' Hf|f fs' _ IH].
      + inversion Hobj as [|?? [mf ->] _]; subst. apply Exists_cons_hd.
        rewrite Htest. by apply py_in_not_searchable.
      + inversion Hobj; subst. apply Exists_cons_tl. by apply IH. }
  split; intros Hc Hex;
    rewrite (filter_scan_unfold _ _ _ _ _ m (JStr "scan")) by done;
    change (eq_str (JStr "scan") "scan") with true; cbn [negb];
    rewrite Hfs; cbn [default from_option id];
    unfold filter_step at 1; cbn [given bind].
  - by rewrite (Hstep owasp_id "owasp_id" owasp_test).
  - unfold filter_step at 1; cbn [given bind].
    by rewrite (Hstep component "location" component_test).
Qed.

Lemma find_set_first_type (rid rid' : string) (st : Status)
    (lst : list RunSummary) :
  (List.find (λ r, String.eqb (run_id r) rid) lst = None
   ∧ List.find (λ r, String.eqb (run_id r) rid) (set_first rid' st lst) = None)
  ∨ ∃ r r',
      List.find (λ r, String.eqb (run_id r) rid) lst = Some r
      ∧ List.find (λ r, String.eqb (run_id r) rid) (set_first rid' st lst)
        = Some r'
      ∧ type r' = type r.
Proof.
  induction lst as [|x lst IH]; [by left|]. cbn [set_first].
  destruct (String.eqb (run_id x) rid') eqn:E'.
  - cbn [List.find with_status run_id].
    destruct (String.eqb (run_id x) rid) eqn:E.
    + right. by exists x, (with_status x st).
    + destruct (List.find _ lst) as [r|] eqn:Hr; [right|by left].
      by exists r, r.
  - cbn [List.find]. destruct (String.eqb (run_id x) rid) eqn:E.
    + right. by exists x, x.
    + apply IH.
Qed.

(** X24: what a reader gets does not depend on the status of any run:
    after a [_set_status], [results] and [filter_scan] answer every id as
    before (a report file is served also for a run that is pending or in
    error). *)
Theorem results_do_not_depend_on_status (disk disk' : Disk)
    (rid rid' : string) (st : Status)
    (severity owasp_id component : option string) :
  _set_status rid' st disk = Ok disk' →
  results disk' rid = results disk rid
  ∧ filter_scan disk' rid severity owasp_id component
    = filter_scan disk rid severity owasp_id component.
Proof.
  unfold _set_status. destruct (_runs disk) as [lst|] eqn:Hruns; [|done].
  cbn [bind]. intros [= <-].
  assert (results (_save_runs (inl <$> set_first rid' st lst) disk) rid
          = results disk rid) as Hres.
  { unfold results. rewrite runs_save_runs, Hruns; cbn [bind].
    destruct (find_set_first_type rid rid' st lst)
      as [[-> ->]|(r & r' & -> & -> & Hty)]; [done|].
    rewrite save_runs_lookup_other by apply report_path_not_runs_file.
    by rewrite Hty. }
  split; [done|]. unfold filter_scan. by rewrite Hres.
Qed.

End FilterMore.

(* ===================================================================== *)
(** ** Preferences, command line and dispatch *)
(* ===================================================================== *)

Lemma optional_str_inv (kv : gmap string json) (k : string) (o : option string) :
  kv !! k = Some (optional_str o) → validate_optional_str kv k = Ok o.
Proof. unfold validate_optional_str. intros ->. by destruct o. Qed.

Lemma config_validate_dump (c : ConfigModel) :
  (0 ≤ ai_call_depth c)%Z → config_validate (config_dump c) = Ok c.
Proof.
  intros Hd. destruct c as [sp d ll rs ef]; simpl in Hd.
  unfold config_validate, config_dump; cbn [source_path ai_call_depth
    log_level ruleset env_file].
  unfold validate_str, validate_depth.
  repeat (rewrite lookup_insert_eq || (rewrite lookup_insert_ne by done)).
  cbn [bind]. apply Z.leb_le in Hd. rewrite Hd; cbn [bind].
  rewrite (optional_str_inv _ "ruleset" rs)
    by (by repeat (rewrite lookup_insert_eq
                   || (rewrite lookup_insert_ne by done))).
  rewrite (optional_str_inv _ "env_file" ef)
    by (by repeat (rewrite lookup_insert_eq
                   || (rewrite lookup_insert_ne by done))).
  done.
Qed.

Section Preferences.
Context `{FileSystem} `{DateTime} `{Workspace}.

Lemma config_json_not_runs_file : CONFIG_JSON ≠ RUNS_FILE.
Proof.
  intros Heq. apply (f_equal parts) in Heq. unfold CONFIG_JSON, RUNS_FILE in Heq.
  rewrite (joinpath_name _ "config.json"), (joinpath_name _ "runs.json") in Heq
    by done.
  simpl in Heq. apply (f_equal last) in Heq. by rewrite !last_snoc in Heq.
Qed.

Lemma report_path_not_config_json (rid : string) (kind : RunType) :
  _report_path rid kind ≠ CONFIG_JSON.
Proof.
  intros Heq. apply (f_equal parts) in Heq.
  destruct (report_path_parts rid kind) as [dir Hparts].
  rewrite Hparts in Heq. unfold CONFIG_JSON in Heq.
  rewrite (joinpath_name _ "config.json") in Heq by done. simpl in Heq.
  apply (f_equal last) in Heq. rewrite !last_snoc in Heq.
  by destruct kind.
Qed.

Lemma load_cfg_save_runs (disk : Disk) (lst : list (RunSummary + json)) :
  _load_cfg (_save_runs lst disk) = _load_cfg disk.
Proof.
  unfold _load_cfg, _save_runs, _json_dump.
  by rewrite lookup_insert_ne by (apply not_eq_sym, config_json_not_runs_file).
Qed.

(** X10: preferences that were saved are the preferences that are
    loaded, and saving them changes neither the registry nor a report. *)
Theorem save_cfg_then_load_cfg (cfg : ConfigModel) (disk : Disk) :
  (0 ≤ ai_call_depth cfg)%Z →
  _load_cfg (_save_cfg cfg disk) = Ok cfg
  ∧ cfg_get (snd (cfg_set cfg disk)) = Ok cfg
  ∧ _runs (_save_cfg cfg disk) = _runs disk
  ∧ (∀ rid kind,
       _save_cfg cfg disk !! _report_path rid kind
       = disk !! _report_path rid kind).
Proof.
  intros Hd.
  assert (_load_cfg (_save_cfg cfg disk) = Ok cfg) as Hload.
  { unfold _load_cfg, _save_cfg. rewrite lookup_insert_eq.
    by apply config_validate_dump. }
  split; [done|]. split; [done|]. split.
  - unfold _save_cfg. apply runs_insert_other, config_json_not_runs_file.
  - intros rid kind. unfold _save_cfg.
    by rewrite lookup_insert_ne
      by (apply not_eq_sym, report_path_not_config_json).
Qed.

(** X12: in [_common_flags] a depth of 0 and an empty log level are
    replaced by the preferences like missing ones, and the depth passed
    after [-d] is 0 only when the configured depth is 0. *)
Theorem common_flags_falsy_arguments (depth : option Z)
    (log_level_ : option string) (disk : Disk) :
  _common_flags (Some 0%Z) log_level_ disk = _common_flags None log_level_ disk
  ∧ _common_flags depth (Some "") disk = _common_flags depth None disk
  ∧ (∀ pref, _load_cfg disk = Ok pref →
       ∃ n level rest,
         _common_flags depth log_level_ disk
         = Ok ("-d" :: pretty n :: "-l" :: level :: rest)
         ∧ (n = 0%Z → ai_call_depth pref = 0%Z)
         ∧ (level = "" → log_level pref = "")).
Proof.
  split; [done|]. split; [done|].
  intros pref Hpref. unfold _common_flags. rewrite Hpref; cbn [bind].
  eexists _, _, _. split; [done|]. split.
  - unfold depth_or. destruct depth as [d|]; [|done].
    destruct (d =? 0)%Z eqn:E; [done|]. apply Z.eqb_neq in E. done.
  - unfold given. destruct log_level_ as [l|]; [|done].
    destruct (String.eqb l "") eqn:E; [done|].
    apply String.eqb_neq in E. done.
Qed.

(** What [inventory] returns, for the theorems below. *)
Lemma api_inventory_accepts_every_path_aux (rid : string) (now : datetime)
    (path_ : option string) (depth : option Z) (log_level_ : option string)
    (existing : gset Path) (disk : Disk) (bg : list Task)
    (pref : ConfigModel) (lst : list RunSummary) :
  _load_cfg disk = Ok pref →
  _runs disk = Ok lst →
  ∃ disk' flags,
    api_inventory rid now path_ depth log_level_ existing disk bg
    = Ok (mkRun rid inventory now pending
            (default (source_path pref) (given path_)),
          disk',
          bg ++ [mkTask
                   (["lintai"; "ai-inventory";
                     default (source_path pref) (given path_);
                     "--graph"; "--output"; str (_report_path rid inventory)]
                    ++ flags) rid])
    ∧ _runs disk' = Ok (lst ++ [mkRun rid inventory now pending
                                  (default (source_path pref) (given path_))]).
Proof.
  intros Hpref Hruns.
  assert (path_or_source path_ disk
          = Ok (default (source_path pref) (given path_))) as Hpath.
  { unfold path_or_source. destruct (given path_); [done|].
    by rewrite Hpref. }
  destruct (_common_flags depth log_level_ disk) as [common|] eqn:Hcommon.
  2:{ unfold _common_flags in Hcommon. by rewrite Hpref in Hcommon. }
  destruct (_env_cli_flags None existing disk) as [env|] eqn:Henv.
  2:{ unfold _env_cli_flags in Henv. cbn [given] in Henv.
      rewrite Hpref in Henv; cbn [bind] in Henv.
      destruct (given (env_file pref)); [done|].
      by repeat case_bool_decide. }
  eexists _, (common ++ env). unfold api_inventory.
  rewrite Hpath, Hcommon, Henv; cbn [bind]. unfold _add_run.
  rewrite Hruns; cbn [bind]. unfold _kick.
  split; [done|]. apply runs_save_runs.
Qed.

(** X13: [inventory] does not ask the workspace guard: with readable
    preferences and registry it accepts every path, records a pending run
    with that path (the configured source path when none is given) at the
    end of the registry and queues one task, whose command starts with
    the program, the target and the report file of the run. *)
Theorem api_inventory_accepts_every_path (rid : string) (now : datetime)
    (path_ : option string) (depth : option Z) (log_level_ : option string)
    (existing : gset Path) (disk : Disk) (bg : list Task)
    (pref : ConfigModel) (lst : list RunSummary) :
  _load_cfg disk = Ok pref →
  _runs disk = Ok lst →
  ∃ disk' flags,
    api_inventory rid now path_ depth log_level_ existing disk bg
    = Ok (mkRun rid inventory now pending
            (default (source_path pref) (given path_)),
          disk',
          bg ++ [mkTask
                   (["lintai"; "ai-inventory";
                     default (source_path pref) (given path_);
                     "--graph"; "--output"; str (_report_path rid inventory)]
                    ++ flags) rid])
    ∧ _runs disk' = Ok (lst ++ [mkRun rid inventory now pending
                                  (default (source_path pref) (given path_))]).
Proof.
  intros Hpref Hruns.
  assert (path_or_source path_ disk
          = Ok (default (source_path pref) (given path_))) as Hpath.
  { unfold path_or_source. destruct (given path_); [done|].
    by rewrite Hpref. }
  destruct (_common_flags depth log_level_ disk) as [common|] eqn:Hcommon.
  2:{ unfold _common_flags in Hcommon. by rewrite Hpref in Hcommon. }
  destruct (_env_cli_flags None existing disk) as [env|] eqn:Henv.
  2:{ unfold _env_cli_flags in Henv. cbn [given] in Henv.
      rewrite Hpref in Henv; cbn [bind] in Henv.
      destruct (given (env_file pref)); [done|].
      by repeat case_bool_decide. }
  eexists _, (common ++ env). unfold api_inventory.
  rewrite Hpath, Hcommon, Henv; cbn [bind]. unfold _add_run.
  rewrite Hruns; cbn [bind]. unfold _kick.
  split; [done|]. apply runs_save_runs.
Qed.

(** X14: unreadable preferences stop every submission: [inventory]
    raises what [_load_cfg] raises, also for an explicit path, and
    nothing is recorded. *)
Theorem api_inventory_needs_preferences (rid : string) (now : datetime)
    (path_ : option string) (depth : option Z) (log_level_ : option string)
    (existing : gset Path) (disk : Disk) (bg : list Task) (e : exn) :
  _load_cfg disk = Raise e →
  api_inventory rid now path_ depth log_level_ existing disk bg = Raise e.
Proof.
  intros Hpref. unfold api_inventory, path_or_source, _common_flags.
  rewrite Hpref. by destruct (given path_).
Qed.

(** X15: the life of a submitted job.  After [inventory] with a new id
    the run is pending; when the process of its task ends with return
    code 0 the run is [done], with another return code it is [error], and
    in both cases the other records are as before; when the process
    cannot be started the exception leaves the task and no status is
    written, so the run stays pending. *)
Theorem submitted_job_lifecycle (rid : string) (now : datetime)
    (path_ : option string) (depth : option Z) (log_level_ : option string)
    (existing : gset Path) (disk : Disk) (bg : list Task)
    (pref : ConfigModel) (lst : list RunSummary) :
  _load_cfg disk = Ok pref →
  _runs disk = Ok lst →
  rid ∉ (run_id <$> lst) →
  ∃ run disk' t,
    api_inventory rid now path_ depth log_level_ existing disk bg
    = Ok (run, disk', bg ++ [t])
    ∧ _runs disk' = Ok (lst ++ [run])
    ∧ run_id run = rid ∧ status run = pending
    ∧ (∀ rc, ∃ disk'',
         task t (Exited rc) disk' = Finished disk''
         ∧ _runs disk''
           = Ok (lst ++ [with_status run
                           (if (rc =? 0)%Z then done else error)]))
    ∧ task t NotStarted disk' = EscapedOSError.
Proof.
  intros Hpref Hruns Hfresh.
  destruct (api_inventory_accepts_every_path_aux rid now path_ depth
              log_level_ existing disk bg pref lst Hpref Hruns)
    as (disk' & flags & Hsubmit & Hruns').
  eexists _, disk', _. split; [exact Hsubmit|]. split; [exact Hruns'|].
  split; [done|]. split; [done|]. split; [|done].
  intros rc. unfold task; cbn [task_rid]. unfold _set_status.
  rewrite Hruns'; cbn [bind]. eexists. split; [done|].
  rewrite set_first_split by done. apply runs_save_runs.
Qed.

End Preferences.

(* ===================================================================== *)
(** ** The most recent run, the history and the directory listing *)
(* ===================================================================== *)

Lemma for_each_raises {A B} (f : A → result B) (e : exn) (l : list A) :
  Forall (λ x, (∃ y, f x = Ok y) ∨ f x = Raise e) l →
  Exists (λ x, f x = Raise e) l →
  for_each f l = Raise e.
Proof.
  induction 1 as [|x l Hx Hl IH]; intros Hex; [by inversion Hex|].
  cbn [for_each]. destruct Hx as [[y Hy]|Hx].
  - rewrite Hy; cbn [bind]. rewrite IH; [done|].
    inversion Hex; subst; [congruence|done].
  - by rewrite Hx.
Qed.


Section Recent.
Context `{FileSystem} `{DateTime} `{Workspace} `{!DateTimeOrder}.











Lemma model_validate_cases (j : json) :
  (∃ r, model_validate j = Ok r) ∨ model_validate j = Raise ValidationError.
Proof.
  unfold model_validate. repeat case_match; eauto.
Qed.

(** X25: one entry of the registry file that is not a valid record makes
    every reader and writer of the registry raise the validation error:
    [_runs], [_add_run], [_set_status], [results] and [filter_scan] for
    every id, and [history]. *)
Theorem invalid_record_blocks_the_registry (disk : Disk) (items : list json)
    (bad : json) (r : RunSummary) (rid : string) (st : Status)
    (severity owasp_id component : option string) :
  disk !! RUNS_FILE = Some (JArr items) →
  bad ∈ items →
  (∀ x, model_validate bad ≠ Ok x) →
  _runs disk = Raise ValidationError
  ∧ _add_run r disk = Raise ValidationError
  ∧ _set_status rid st disk = Raise ValidationError
  ∧ results disk rid = Raise ValidationError
  ∧ filter_scan disk rid severity owasp_id component = Raise ValidationError
  ∧ history disk = Raise ValidationError.
Proof.
  intros Hfile Hin Hbad.
  assert (_runs disk = Raise ValidationError) as Hruns.
  { unfold _runs, _json_load. rewrite Hfile; cbn [py_iter bind].
    apply for_each_raises.
    - apply Forall_forall. intros j _.
      destruct (model_validate_cases j) as [[x Hx]|Hx]; [left; by exists x|by right].
    - apply Exists_exists. exists bad. split; [done|].
      destruct (model_validate_cases bad) as [[x Hx]|Hx]; [|done].
      by destruct (Hbad x). }
  unfold _add_run, _set_status, filter_scan, results, history.
  by rewrite Hruns.
Qed.

Section Listing.
Context `{!Directories}.


End Listing.

End Recent.

(* ===================================================================== *)
(** ** More on the sub-graph helper and the workspace guard *)
(* ===================================================================== *)

Lemma filter_sublist_mono {A} (P Q : A → Prop) `{∀ x, Decision (P x)}
    `{∀ x, Decision (Q x)} (l : list A) :
  (∀ x, P x → Q x) → filter P l `sublist_of` filter Q l.
Proof.
  intros HPQ. induction l as [|x l IH]; [done|].
  rewrite !filter_cons. destruct (decide (P x)) as [HP|HP].
  - rewrite decide_True by auto. by apply sublist_skip.
  - destruct (decide (Q x)); [by apply sublist_cons|done].
Qed.

Lemma Forall2_filter_related {A} (R : A → A → Prop) (P Q : A → Prop)
    `{∀ x, Decision (P x)} `{∀ x, Decision (Q x)} (l k : list A) :
  Forall2 R l k →
  (∀ x y, R x y → (P x ↔ Q y)) →
  Forall2 R (filter P l) (filter Q k).
Proof.
  intros Hlk HPQ. induction Hlk as [|x y l k Hxy _ IH]; [constructor|].
  rewrite !filter_cons. destruct (decide (P x)) as [HP|HP].
  - rewrite decide_True by (by apply (HPQ x y)). by constructor.
  - by rewrite decide_False by (by rewrite <- (HPQ x y)).
Qed.

Section NeighbourhoodMore.
Context `{Countable K}.
Implicit Types (nodes : list (Node K)) (edges : list (Edge K)).
Implicit Types (u v seed : K).

(** The edge with its two ends exchanged. *)
Definition reverse_edge (e : Edge K) : Edge K :=
  mkEdge (target e) (source e) (edge_label e).

(** [edges'] is [edges] with some of its edges reversed. *)
Definition same_up_to_direction edges edges' : Prop :=
  Forall2 (λ e e', e' = e ∨ e' = reverse_edge e) edges edges'.

(** X20: a larger depth only adds to the result: the nodes and the edges
    returned for [d] are sub-lists of those returned for [d' >= d]; and a
    listed start node is returned at every depth, also at depth 0 and
    without any edge. *)
Theorem subgraph_grows_with_depth nodes edges seed (d d' : nat) :
  (d ≤ d')%nat →
  (subgraph nodes edges seed d).1 `sublist_of` (subgraph nodes edges seed d').1
  ∧ (subgraph nodes edges seed d).2 `sublist_of` (subgraph nodes edges seed d').2
  ∧ (∀ n, n ∈ nodes → node_id n = seed → n ∈ (subgraph nodes edges seed d).1).
Proof.
  intros Hle.
  assert (∀ v, v ∈ rounds edges d {[seed]} {[seed]} →
               v ∈ rounds edges d' {[seed]} {[seed]}) as Hmono.
  { intros v Hv. apply keep_spec. apply keep_spec in Hv.
    by eapply within_le. }
  unfold subgraph; cbn [fst snd]. split; [|split].
  - apply filter_sublist_mono. intros n. apply Hmono.
  - apply filter_sublist_mono. intros e [Hs Ht]. split; by apply Hmono.
  - intros n Hn Hid. apply list_elem_of_filter. split; [|done].
    apply keep_spec. rewrite Hid. constructor.
Qed.

Lemma adjacent_same_up_to_direction edges edges' u v :
  same_up_to_direction edges edges' →
  adjacent edges u v → adjacent edges' u v.
Proof.
  intros Hsame (e & He & Hends).
  apply list_elem_of_lookup in He as [i Hi].
  destruct (Forall2_lookup_l _ _ _ _ _ Hsame Hi) as (e' & Hi' & He').
  exists e'. split; [by eapply list_elem_of_lookup_2|].
  destruct He' as [->| ->]; [done|]. simpl. tauto.
Qed.

Lemma same_up_to_direction_sym edges edges' :
  same_up_to_direction edges edges' → same_up_to_direction edges' edges.
Proof.
  intros Hsame. apply Forall2_flip. eapply Forall2_impl; [exact Hsame|].
  intros e e' [->| ->]; [by left|right]. by destruct e.
Qed.

Lemma within_same_up_to_direction edges edges' seed (d : nat) v :
  same_up_to_direction edges edges' →
  within edges seed d v → within edges' seed d v.
Proof.
  intros Hsame. induction 1 as [d|d u v _ IH Hadj]; [constructor|].
  eapply within_hop; [exact IH|]. by eapply adjacent_same_up_to_direction.
Qed.

(** X21: the direction of the edges does not matter: reversing any of
    the edges of the report leaves the returned nodes the same, and the
    returned edges are the same edges, reversed where the report's were. *)
Theorem subgraph_ignores_edge_direction nodes edges edges' seed (depth : nat) :
  same_up_to_direction edges edges' →
  (subgraph nodes edges' seed depth).1 = (subgraph nodes edges seed depth).1
  ∧ same_up_to_direction (subgraph nodes edges seed depth).2
                         (subgraph nodes edges' seed depth).2.
Proof.
  intros Hsame.
  assert (∀ v, v ∈ rounds edges' depth {[seed]} {[seed]} ↔
               v ∈ rounds edges depth {[seed]} {[seed]}) as Hkeep.
  { intros v. rewrite !keep_spec. split.
    - apply within_same_up_to_direction. by apply same_up_to_direction_sym.
    - by apply within_same_up_to_direction. }
  unfold subgraph; cbn [fst snd]. split.
  - apply list_filter_iff. intros n. apply Hkeep.
  - apply (Forall2_filter_related _ _ _ _ _ Hsame).
    intros e e' [->| ->]; [by rewrite !Hkeep|].
    simpl. rewrite !Hkeep. tauto.
Qed.

End NeighbourhoodMore.

Lemma string_app_assoc (a b c : string) : (a +:+ b) +:+ c = a +:+ (b +:+ c).
Proof.
  induction a as [|x a IH]; [done|].
  change (String x ((a +:+ b) +:+ c) = String x (a +:+ (b +:+ c))).
  by rewrite IH.
Qed.

Lemma concat_app (sep : string) (l k : list string) :
  l ≠ [] → k ≠ [] →
  String.concat sep (l ++ k)
  = String.concat sep l +:+ sep +:+ String.concat sep k.
Proof.
  intros Hl Hk. induction l as [|x [|y l] IH]; [done| |].
  - destruct k; [done|]. done.
  - change (String.concat sep ((x :: y :: l) ++ k))
      with (x +:+ sep +:+ String.concat sep ((y :: l) ++ k)).
    rewrite IH by done.
    change (String.concat sep (x :: y :: l))
      with (x +:+ sep +:+ String.concat sep (y :: l)).
    by rewrite !string_app_assoc.
Qed.

Lemma strip_prefix_app (pre s : string) : strip_prefix pre (pre +:+ s) = Some s.
Proof.
  induction pre as [|a pre IH]; [done|].
  change (String a pre +:+ s) with (String a (pre +:+ s)).
  cbn [strip_prefix]. by rewrite Ascii.eqb_refl.
Qed.

Section GuardMore.
Context `{FileSystem} `{Workspace}.

(** X22: [ROOT] is used as it is given, not resolved: when it is a
    relative path, [_safe] returns no path at all, and every input that
    expands and resolves is answered with the 403 exception. *)
Theorem safe_rejects_everything_under_relative_root (path : pathlike) :
  absolute ROOT = false →
  (∀ p, _safe path ≠ Ok p)
  ∧ (∀ q p, expanduser (Path_of_pathlike path) = Ok q →
            resolve (ROOT </> q) = Ok p →
            _safe path = Raise (HTTPException 403)).
Proof.
  intros Hroot.
  assert (∀ q p, resolve q = Ok p → is_relative_to p ROOT = false) as Hout.
  { intros q p Hp. apply resolve_absolute in Hp.
    unfold is_relative_to. by rewrite Hp, Hroot. }
  split.
  - intros p Hsafe. apply safe_inv in Hsafe as (q & _ & Hp & Hrel).
    apply Hout in Hp. congruence.
  - intros q p Hq Hp. rewrite (safe_unfold path q p Hq Hp).
    by rewrite (Hout _ _ Hp).
Qed.

Section ListingPaths.
Context `{!Directories}.

(** X23: with a workspace root other than [/], the directory that
    [list_dir] lists is [ROOT] followed by some components; [cwd] is
    these components joined by [/] (empty for the root itself) and the
    path of each item is these components and the item's name joined by
    [/], that is, the path of the item relative to [ROOT]. *)
Theorem list_dir_paths_are_relative_to_root (path_ : option string)
    (l : Listing) :
  parts ROOT ≠ [] →
  list_dir path_ = Ok l →
  ∃ p suffix,
    _safe (match given path_ with
           | Some s => PStr s
           | None => PPath ROOT
           end) = Ok p
    ∧ parts p = parts ROOT ++ suffix
    ∧ listing_cwd l = String.concat "/" suffix
    ∧ Forall (λ i,
                Path_of_string (item_name i) = mkPath false [item_name i] →
                item_path i = String.concat "/" (suffix ++ [item_name i]))
             (items l).
Proof.
  intros Hroot. unfold list_dir.
  destruct (_safe _) as [p|] eqn:Hp; [|done]; cbn [bind].
  destruct (is_dir p) eqn:Hdir; [|done]; cbn [negb].
  pose proof Hp as Hp'. apply safe_inv in Hp' as (q & _ & Hres & Hrel).
  pose proof (resolve_absolute _ _ Hres) as Habs.
  pose proof Hrel as Hrel'.
  apply is_relative_to_spec in Hrel' as [Habs' [suffix Hparts]].
  assert (absolute ROOT = true) as Hrabs by congruence.
  intros Hl. exists p, suffix. split; [done|]. split; [done|].
  assert (listing_cwd l = String.concat "/" suffix
          ∧ items l
            = (λ name, mkItem name
                 (removeprefix (str (p </> Path_of_string name))
                    (str ROOT +:+ "/"))
                 (is_dir (p </> Path_of_string name)))
              <$> filter (λ name, hidden name = false)
                    (merge_sort name_le (iterdir p))) as [Hcwd Hitems].
  { case_bool_decide as Hroot_eq.
    - injection Hl as <-. split; [|done]. simpl.
      rewrite Hroot_eq in Hparts.
      assert (suffix = []) as ->; [|done].
      apply (f_equal length) in Hparts. rewrite length_app in Hparts.
      destruct suffix; [done|simpl in Hparts; lia].
    - unfold relative_to in Hl. rewrite Hrel in Hl; cbn [bind] in Hl.
      injection Hl as <-. split; [|done]. simpl.
      rewrite Hparts, drop_app_length. unfold str; simpl.
      destruct suffix as [|x suffix]; [|done].
      destruct Hroot_eq. destruct p, ROOT; simpl in *.
      rewrite app_nil_r in Hparts. congruence. }
  split; [done|]. rewrite Hitems. apply Forall_fmap, Forall_forall.
  intros name _ Hname; simpl in *. rewrite Hname.
  unfold joinpath, str; simpl. rewrite Habs, Hrabs, Hparts.
  rewrite <- app_assoc.
  rewrite concat_app by (done || by destruct suffix).
  unfold removeprefix.
  rewrite <- !string_app_assoc, 2!string_app_assoc.
  rewrite <- (string_app_assoc "/"), <- (string_app_assoc ("/" +:+ _)).
  by rewrite strip_prefix_app.
Qed.

End ListingPaths.

End GuardMore.

(* ===================================================================== *)
(** ** Concrete runs *)
(* ===================================================================== *)

Import Lexical.

Example runs_after_save_runs :
  _runs (_save_runs [inl run_done; inl run_inventory] ∅)
  = Ok [run_done; run_inventory].
Proof. vm_compute; reflexivity. Qed.

Lemma set_status_keeps_terminal_witness :
  ∃ disk' lst',
    _set_status "r1" done disk_done = Ok disk'
    ∧ _runs disk' = Ok lst'
    ∧ Forall2 (λ r r',
                 run_id r' = run_id r
                 ∧ (terminal (status r) = true → terminal (status r') = true)
                 ∧ (run_id r ≠ "r1" ∨ status r = done → r' = r))
              [run_done] lst'
    ∧ (∀ r, List.find (λ r, String.eqb (run_id r) "r1") [run_done] = Some r →
            List.find (λ r, String.eqb (run_id r) "r1") lst'
            = Some (with_status r done)).
Proof.
  apply (set_status_keeps_terminal disk_done "r1" done [run_done]).
  - reflexivity.
  - vm_compute; reflexivity.
Defined.

(** C1 (as stated) fails: the run is [done], and a later
    [_set_status "r1" "error"] makes it [error]. *)
Lemma set_status_overwrites_done :
  _runs disk_done = Ok [run_done]
  ∧ status run_done = done
  ∧ ∃ disk',
      _set_status "r1" error disk_done = Ok disk'
      ∧ _runs disk' = Ok [with_status run_done error]
      ∧ status (with_status run_done error) ≠ status run_done.
Proof.
  split; [vm_compute; reflexivity|]. split; [reflexivity|].
  eexists. split; [reflexivity|]. split; [vm_compute; reflexivity|].
  discriminate.
Qed.

Lemma add_run_appends_witness :
  (∃ disk', _add_run run_pending ∅ = Ok disk'
            ∧ _runs disk' = Ok ([] ++ [run_pending]))
  ∧ (NoDup (run_id <$> []) → run_id run_pending ∉ (run_id <$> []) →
     NoDup (run_id <$> ([] ++ [run_pending])))
  ∧ (∃ disk', add_runs [run_done] ∅ = Ok disk'
              ∧ _runs disk' = Ok ([] ++ [run_done])).
Proof.
  apply (add_run_appends ∅ [] run_pending [run_done]).
  vm_compute; reflexivity.
Defined.

(** C2 (as stated) fails: the registry holds a run with id [r1], and
    [_add_run] of another record with that id succeeds and leaves two
    records with the id. *)
Lemma add_run_accepts_duplicate_id :
  _runs disk_done = Ok [run_done]
  ∧ run_id run_pending = run_id run_done
  ∧ ∃ disk',
      _add_run run_pending disk_done = Ok disk'
      ∧ _runs disk' = Ok [run_done; run_pending]
      ∧ ¬ NoDup (run_id <$> [run_done; run_pending]).
Proof.
  split; [vm_compute; reflexivity|]. split; [reflexivity|].
  eexists. split; [reflexivity|]. split; [vm_compute; reflexivity|].
  intros Hnd. apply NoDup_cons in Hnd as [Hnotin _].
  apply Hnotin. simpl. left.
Qed.

Example results_scan_report :
  results disk_scan "r1" = Ok (JObj scan_fields_read).
Proof. vm_compute; reflexivity. Qed.

(** Only the finding inside the sub-directory is rewritten; the number,
    the NUL string and the outside path stay as they are. *)
Example results_mixed_report :
  results disk_mixed "r1"
  = Ok (JObj (<["findings" :=
                 JArr [finding_inside_read; finding_number; finding_nul;
                       finding_outside; finding_plain]]> mixed_fields)).
Proof. vm_compute; reflexivity. Qed.

Lemma results_relocates_inside_only_witness :
  ∃ fs',
    results disk_mixed "r1" = Ok (JObj (<["findings" := JArr fs']> mixed_fields))
    ∧ Forall2 (relocated base_r1) mixed_findings fs'.
Proof.
  apply (results_relocates_inside_only disk_mixed "r1" [run_done] run_done
           mixed_fields mixed_findings base_r1).
  - vm_compute; reflexivity.
  - reflexivity.
  - reflexivity.
  - vm_compute; reflexivity.
  - vm_compute; reflexivity.
  - repeat constructor; eexists; reflexivity.
  - vm_compute; reflexivity.
Defined.

(* --------------------------------------------------------------------- *)
(** *** The workspace guard *)

Example safe_normalises : _safe (PStr "a/./b/../c") = Ok inside_path.
Proof. vm_compute; reflexivity. Qed.

Example safe_rejects_traversal :
  _safe (PStr "../../etc/passwd") = Raise (HTTPException 403).
Proof. vm_compute; reflexivity. Qed.

Example safe_rejects_absolute_override :
  _safe (PStr "/etc/passwd") = Raise (HTTPException 403).
Proof. vm_compute; reflexivity. Qed.

Example safe_rejects_home :
  _safe (PStr "~/notes") = Raise (HTTPException 403).
Proof. vm_compute; reflexivity. Qed.

Lemma safe_inside_or_forbidden_and_idempotent_witness :
  absolute inside_path = true
  ∧ (∃ suffix, parts inside_path = parts ROOT ++ suffix)
  ∧ _safe (PPath inside_path) = Ok inside_path.
Proof.
  apply (proj1 (proj2
           (safe_inside_or_forbidden_and_idempotent (PStr "a/./b/../c")))
           inside_path).
  vm_compute; reflexivity.
Defined.

(** C7 (as stated) fails: for a [~user] whose home directory is not
    known, [expanduser] raises, and [_safe] answers with that
    [RuntimeError]: it returns no path and does not raise the 403
    exception.  A NUL character in the input does the same through
    [resolve], with [ValueError]. *)
Lemma safe_unknown_user_is_not_a_path_escape :
  _safe (PStr "~nosuchuser/x") = Raise RuntimeError
  ∧ (∀ p, _safe (PStr "~nosuchuser/x") ≠ Ok p)
  ∧ _safe (PStr "~nosuchuser/x") ≠ Raise (HTTPException 403)
  ∧ _safe (PStr (String zero "b")) = Raise ValueError.
Proof.
  split; [vm_compute; reflexivity|]. split; [intros p; vm_compute; discriminate|].
  split; [vm_compute; discriminate|vm_compute; reflexivity].
Qed.

(* --------------------------------------------------------------------- *)
(** *** The findings filter *)

Lemma scan_findings_read_ok : Forall finding_ok scan_findings_read.
Proof.
  repeat constructor; eexists; (split; [reflexivity|]); by vm_compute.
Defined.

Lemma filter_scan_conjunction_witness :
  let chosen := satisfies (given (Some "high")) (given (Some "LLM"))
                  (given (Some "src")) in
  filter_scan disk_scan "r1" (Some "high") (Some "LLM") (Some "src")
  = Ok (JObj (<["findings" := JArr (List.filter chosen scan_findings_read)]>
               scan_fields_read))
  ∧ (∀ f, chosen f = true ↔
       (∀ s, given (Some "high") = Some s → field f "severity" = Some (JStr s))
       ∧ (∀ s, given (Some "LLM") = Some s →
            ∃ pre post, text_of (field f "owasp_id") = pre +:+ s +:+ post)
       ∧ (∀ s, given (Some "src") = Some s →
            ∃ pre post, text_of (field f "location") = pre +:+ s +:+ post))
  ∧ (given (Some "high") = None → given (Some "LLM") = None →
     given (Some "src") = None →
     filter_scan disk_scan "r1" (Some "high") (Some "LLM") (Some "src")
     = Ok (JObj scan_fields_read)).
Proof.
  apply (filter_scan_conjunction disk_scan "r1" (Some "high") (Some "LLM")
           (Some "src") scan_fields_read scan_findings_read).
  - vm_compute; reflexivity.
  - vm_compute; discriminate.
  - vm_compute; reflexivity.
  - vm_compute; reflexivity.
  - exact scan_findings_read_ok.
Defined.

Example filter_scan_all_three :
  List.filter (satisfies (Some "high") (Some "LLM") (Some "src"))
    scan_findings_read = [finding_inside_read].
Proof. vm_compute; reflexivity. Qed.

(** C4 (as stated) fails: the severity criterion is provided and is the
    empty string, no finding has the empty string as its severity, and the
    filter returns all three findings. *)
Lemma filter_scan_empty_severity_keeps_all :
  results disk_scan "r1" = Ok (JObj scan_fields_read)
  ∧ scan_fields_read !! "findings" = Some (JArr scan_findings_read)
  ∧ List.filter (satisfies (Some "") None None) scan_findings_read = []
  ∧ filter_scan disk_scan "r1" (Some "") None None
    = Ok (JObj (<["findings" := JArr scan_findings_read]> scan_fields_read))
  ∧ scan_findings_read ≠ [].
Proof.
  repeat split; try (vm_compute; reflexivity). discriminate.
Qed.

Lemma filter_scan_empty_criterion_is_absent_witness :
  filter_scan disk_scan "r1" (Some "") None None = Ok (JObj scan_fields_read)
  ∧ filter_scan disk_scan "r1" None (Some "") None = Ok (JObj scan_fields_read)
  ∧ filter_scan disk_scan "r1" None None (Some "") = Ok (JObj scan_fields_read)
  ∧ filter_scan disk_scan "r1" (Some "") (Some "") (Some "")
    = Ok (JObj scan_fields_read).
Proof.
  apply (proj2 (proj2 (proj2
           (filter_scan_empty_criterion_is_absent disk_scan "r1" None None None)))
           scan_fields_read (JArr scan_findings_read)).
  - vm_compute; reflexivity.
  - vm_compute; discriminate.
  - vm_compute; reflexivity.
  - vm_compute; reflexivity.
Defined.

(** C8: on the inventory report of the documented shape, [filter_scan]
    does not reach its 400 answer: the lookup of [type] in the report
    raises [KeyError]. *)
Theorem filter_scan_inventory_report_raises_KeyError :
  results disk_inventory "r2" = Ok (JObj inventory_fields)
  ∧ filter_scan disk_inventory "r2" None None None = Raise (KeyError "type")
  ∧ filter_scan disk_inventory "r2" None None None
    ≠ Raise (HTTPException 400).
Proof.
  split; [vm_compute; reflexivity|]. split; [vm_compute; reflexivity|].
  vm_compute; discriminate.
Qed.

Example filter_scan_typed_inventory_report :
  filter_scan disk_inventory_typed "r2" None None None
  = Raise (HTTPException 400).
Proof. vm_compute; reflexivity. Qed.

(* --------------------------------------------------------------------- *)
(** *** The sub-graph helper *)

(** C9 (as stated) fails: A is not the id of a node, an edge names it,
    and the helper returns a node and an edge. *)
Lemma subgraph_unknown_seed_on_an_edge :
  ("A" ∉ (node_id <$> dangling_nodes))
  ∧ subgraph dangling_nodes dangling_edges "A" 1
    = ([mkNode "B" "b"], [mkEdge "A" "B" "ab"])
  ∧ subgraph dangling_nodes dangling_edges "A" 1 ≠ ([], []).
Proof.
  split; [|split].
  - apply (bool_decide_unpack _). vm_compute. exact I.
  - vm_compute; reflexivity.
  - vm_compute; discriminate.
Qed.

Lemma subgraph_unknown_seed_is_empty_witness :
  subgraph path_nodes path_edges "Z" 3 = ([], []).
Proof.
  apply (subgraph_unknown_seed_is_empty path_nodes path_edges "Z" 3).
  - apply (bool_decide_unpack _). vm_compute. exact I.
  - apply Forall_forall. apply (bool_decide_unpack _). vm_compute. exact I.
Defined.

(* ===================================================================== *)
(** ** Concrete runs, continued *)
(* ===================================================================== *)

Import LexicalTree.

Ltac not_in_list := apply (bool_decide_unpack _); vm_compute; exact I.




Lemma set_status_unknown_id_changes_nothing_witness :
  ∃ disk', _set_status "zz" error disk_done = Ok disk'
           ∧ _runs disk' = Ok [run_done].
Proof.
  apply (set_status_unknown_id_changes_nothing disk_done "zz" error [run_done]).
  - vm_compute; reflexivity.
  - not_in_list.
Defined.

Lemma set_status_rewrites_first_match_only_witness :
  ∃ disk',
    _set_status "r1" error disk_twice = Ok disk'
    ∧ _runs disk' = Ok ([] ++ with_status run_done error :: [run_pending]).
Proof.
  apply (set_status_rewrites_first_match_only disk_twice "r1" error []
           [run_pending] run_done).
  - vm_compute; reflexivity.
  - not_in_list.
  - reflexivity.
Defined.

Lemma add_run_then_set_status_witness :
  ∃ disk1 disk2,
    _add_run run_inventory disk_done = Ok disk1
    ∧ List.find (λ x, String.eqb (run_id x) (run_id run_inventory))
        ([run_done] ++ [run_inventory]) = Some run_inventory
    ∧ _runs disk1 = Ok ([run_done] ++ [run_inventory])
    ∧ _set_status (run_id run_inventory) error disk1 = Ok disk2
    ∧ _runs disk2 = Ok ([run_done] ++ [with_status run_inventory error]).
Proof.
  apply (add_run_then_set_status disk_done [run_done] run_inventory error).
  - vm_compute; reflexivity.
  - not_in_list.
Defined.


Lemma unknown_run_is_not_found_witness :
  results disk_scan "zz" = Raise (HTTPException 404)
  ∧ filter_scan disk_scan "zz" None (Some "LLM") None
    = Raise (HTTPException 404).
Proof.
  apply (unknown_run_is_not_found disk_scan "zz" [run_done]).
  - vm_compute; reflexivity.
  - not_in_list.
Defined.

Lemma results_fails_on_non_object_finding_witness :
  results disk_broken "r1" = Raise AttributeError.
Proof.
  apply (results_fails_on_non_object_finding disk_broken "r1" [run_done]
           run_done broken_fields [finding_inside] [finding_plain]
           (JStr "oops") base_r1).
  - vm_compute; reflexivity.
  - reflexivity.
  - reflexivity.
  - vm_compute; reflexivity.
  - vm_compute; reflexivity.
  - repeat constructor; eexists; reflexivity.
  - discriminate.
  - vm_compute; reflexivity.
Defined.

Lemma filter_scan_keeps_a_sublist_witness :
  ∃ kept,
    JObj (<["findings" := JArr [finding_inside_read; finding_plain]]>
            scan_fields_read)
    = JObj (<["findings" := JArr kept]> scan_fields_read)
    ∧ kept `sublist_of` scan_findings_read.
Proof.
  apply (filter_scan_keeps_a_sublist disk_scan "r1" (Some "high") None None
           scan_fields_read scan_findings_read).
  - vm_compute; reflexivity.
  - vm_compute; discriminate.
  - vm_compute; reflexivity.
  - vm_compute; reflexivity.
Defined.

Example results_reads_null_category :
  results disk_null "r1" = Ok (JObj null_fields).
Proof. vm_compute; reflexivity. Qed.

Lemma filter_scan_raises_on_unsearchable_field_witness :
  (given (Some "LLM") = Some "LLM" →
   Exists (λ f, not_searchable (field f "owasp_id")) null_findings →
   filter_scan disk_null "r1" None (Some "LLM") (Some "LLM") = Raise TypeError)
  ∧ (given (Some "LLM") = Some "LLM" →
     Exists (λ f, not_searchable (field f "location")) null_findings →
     filter_scan disk_null "r1" None None (Some "LLM") = Raise TypeError).
Proof.
  apply (filter_scan_raises_on_unsearchable_field disk_null "r1" (Some "LLM")
           (Some "LLM") null_fields null_findings "LLM").
  - vm_compute; reflexivity.
  - vm_compute; discriminate.
  - vm_compute; reflexivity.
  - vm_compute; reflexivity.
  - repeat constructor; eexists; reflexivity.
Defined.

Example filter_scan_null_category :
  filter_scan disk_null "r1" None (Some "LLM") None = Raise TypeError
  ∧ filter_scan disk_null "r1" None None (Some "src") = Raise TypeError
  ∧ filter_scan disk_null "r1" (Some "low") (Some "LLM") None
    = Ok (JObj (<["findings" := JArr []]> null_fields)).
Proof. repeat split; vm_compute; reflexivity. Qed.

Lemma save_cfg_then_load_cfg_witness :
  _load_cfg (_save_cfg cfg_sample disk_done) = Ok cfg_sample
  ∧ cfg_get (snd (cfg_set cfg_sample disk_done)) = Ok cfg_sample
  ∧ _runs (_save_cfg cfg_sample disk_done) = _runs disk_done
  ∧ (∀ rid kind,
       _save_cfg cfg_sample disk_done !! _report_path rid kind
       = disk_done !! _report_path rid kind).
Proof. apply (save_cfg_then_load_cfg cfg_sample disk_done). done. Defined.

Example load_cfg_refuses_negative_depth :
  _load_cfg disk_bad_cfg = Raise ValidationError.
Proof. vm_compute; reflexivity. Qed.

Example safe_rejects_etc : _safe (PStr "/etc") = Raise (HTTPException 403).
Proof. vm_compute; reflexivity. Qed.

Lemma api_inventory_accepts_every_path_witness :
  ∃ disk' flags,
    api_inventory "r9" june_first (Some "/etc") None None
      ∅ disk_done []
    = Ok (mkRun "r9" inventory june_first pending
            (default (source_path ConfigModel_default) (given (Some "/etc"))),
          disk',
          [] ++ [mkTask
                   (["lintai"; "ai-inventory";
                     default (source_path ConfigModel_default)
                       (given (Some "/etc"));
                     "--graph"; "--output"; str (_report_path "r9" inventory)]
                    ++ flags) "r9"])
    ∧ _runs disk'
      = Ok ([run_done]
            ++ [mkRun "r9" inventory june_first pending
                  (default (source_path ConfigModel_default)
                     (given (Some "/etc")))]).
Proof.
  apply (api_inventory_accepts_every_path "r9" june_first
           (Some "/etc") None None ∅ disk_done [] ConfigModel_default
           [run_done]).
  - vm_compute; reflexivity.
  - vm_compute; reflexivity.
Defined.

Lemma api_inventory_needs_preferences_witness :
  api_inventory "r9" june_first (Some "src") None None
    ∅ disk_bad_cfg []
  = Raise ValidationError.
Proof.
  apply (api_inventory_needs_preferences "r9" june_first
           (Some "src") None None ∅ disk_bad_cfg [] ValidationError).
  vm_compute; reflexivity.
Defined.

Lemma submitted_job_lifecycle_witness :
  ∃ run disk' t,
    api_inventory "r9" june_first None (Some 0%Z) None
      ∅ disk_done []
    = Ok (run, disk', [] ++ [t])
    ∧ _runs disk' = Ok ([run_done] ++ [run])
    ∧ run_id run = "r9" ∧ status run = pending
    ∧ (∀ rc, ∃ disk'',
         task t (Exited rc) disk' = Finished disk''
         ∧ _runs disk''
           = Ok ([run_done]
                 ++ [with_status run
                       (if (rc =? 0)%Z then done else error)]))
    ∧ task t NotStarted disk' = EscapedOSError.
Proof.
  apply (submitted_job_lifecycle "r9" june_first None
           (Some 0%Z) None ∅ disk_done [] ConfigModel_default [run_done]).
  - vm_compute; reflexivity.
  - vm_compute; reflexivity.
  - not_in_list.
Defined.


Example last_result_mixed_clocks :
  _runs disk_mixed_clocks = Ok [run_a; run_naive; run_c]
  ∧ last_result disk_mixed_clocks = Raise TypeError
  ∧ last_result_by_type "scan" disk_mixed_clocks = Raise TypeError
  ∧ last_result_by_type "inventory" disk_mixed_clocks = Ok (None, None).
Proof. repeat split; vm_compute; reflexivity. Qed.

Example last_result_three :
  last_result disk_three = Ok (Some run_b, Some report_b)
  ∧ last_result_by_type "scan" disk_three = Ok (Some run_c, None)
  ∧ last_result_by_type "report" disk_three = Ok (None, None)
  ∧ last_result ∅ = Ok (None, None).
Proof. repeat split; vm_compute; reflexivity. Qed.



Example history_three :
  h_run <$> default [] (match history disk_three with
                        | Ok es => Some es
                        | Raise _ => None
                        end)
  = [run_a; run_b; run_c].
Proof. vm_compute; reflexivity. Qed.

Example list_dir_root :
  list_dir None
  = Ok (mkListing ""
          [mkItem "README.md" "README.md" false;
           mkItem "app.py" "app.py" false;
           mkItem "src" "src" true])
  ∧ list_dir (Some "src")
    = Ok (mkListing "src"
            [mkItem "lib.py" "src/lib.py" false;
             mkItem "main.py" "src/main.py" false])
  ∧ list_dir (Some "app.py") = Raise (HTTPException 400)
  ∧ list_dir (Some "../..") = Raise (HTTPException 403).
Proof. repeat split; vm_compute; reflexivity. Qed.


Lemma list_dir_paths_are_relative_to_root_witness :
  ∃ p suffix,
    _safe (PStr "src") = Ok p
    ∧ parts p = parts ROOT ++ suffix
    ∧ "src" = String.concat "/" suffix
    ∧ Forall (λ i,
                Path_of_string (item_name i) = mkPath false [item_name i] →
                item_path i = String.concat "/" (suffix ++ [item_name i]))
             [mkItem "lib.py" "src/lib.py" false;
              mkItem "main.py" "src/main.py" false].
Proof.
  apply (list_dir_paths_are_relative_to_root (Some "src")
           (mkListing "src"
              [mkItem "lib.py" "src/lib.py" false;
               mkItem "main.py" "src/main.py" false])).
  - discriminate.
  - vm_compute; reflexivity.
Defined.

Lemma subgraph_grows_with_depth_witness :
  (subgraph path_nodes path_edges "B" 1).1
    `sublist_of` (subgraph path_nodes path_edges "B" 2).1
  ∧ (subgraph path_nodes path_edges "B" 1).2
      `sublist_of` (subgraph path_nodes path_edges "B" 2).2
  ∧ (∀ n, n ∈ path_nodes → node_id n = "B" →
          n ∈ (subgraph path_nodes path_edges "B" 1).1).
Proof.
  apply (subgraph_grows_with_depth path_nodes path_edges "B" 1 2). lia.
Defined.

Lemma subgraph_ignores_edge_direction_witness :
  (subgraph path_nodes path_edges_reversed "A" 2).1
  = (subgraph path_nodes path_edges "A" 2).1
  ∧ same_up_to_direction (subgraph path_nodes path_edges "A" 2).2
      (subgraph path_nodes path_edges_reversed "A" 2).2.
Proof.
  apply (subgraph_ignores_edge_direction path_nodes path_edges
           path_edges_reversed "A" 2).
  unfold same_up_to_direction, path_edges, path_edges_reversed.
  constructor; [by left|]. constructor; [by right|].
  constructor; [by left|]. constructor.
Defined.

Lemma safe_rejects_everything_under_relative_root_witness :
  (∀ p, @_safe lexical_fs relative_workspace (PStr "a") ≠ Ok p)
  ∧ (∀ q p,
       expanduser (Path_of_pathlike (PStr "a")) = Ok q →
       resolve (@ROOT relative_workspace </> q) = Ok p →
       @_safe lexical_fs relative_workspace (PStr "a")
       = Raise (HTTPException 403)).
Proof.
  apply (@safe_rejects_everything_under_relative_root lexical_fs
           relative_workspace (PStr "a")).
  reflexivity.
Defined.

Lemma results_do_not_depend_on_status_witness :
  results (_save_runs [inl (with_status run_done error)] disk_scan) "r1"
  = results disk_scan "r1"
  ∧ filter_scan (_save_runs [inl (with_status run_done error)] disk_scan)
      "r1" (Some "high") None None
    = filter_scan disk_scan "r1" (Some "high") None None.
Proof.
  apply (results_do_not_depend_on_status disk_scan
           (_save_runs [inl (with_status run_done error)] disk_scan)
           "r1" "r1" error (Some "high") None None).
  vm_compute; reflexivity.
Defined.

Lemma invalid_record_blocks_the_registry_witness :
  _runs disk_invalid = Raise ValidationError
  ∧ _add_run run_inventory disk_invalid = Raise ValidationError
  ∧ _set_status "r1" done disk_invalid = Raise ValidationError
  ∧ results disk_invalid "r1" = Raise ValidationError
  ∧ filter_scan disk_invalid "r1" None None None = Raise ValidationError
  ∧ history disk_invalid = Raise ValidationError.
Proof.
  apply (invalid_record_blocks_the_registry disk_invalid
           [model_dump run_done; JObj (<["run_id" := JStr "x"]> ∅)]
           (JObj (<["run_id" := JStr "x"]> ∅)) run_inventory "r1" done
           None None None).
  - vm_compute; reflexivity.
  - right; left.
  - intros x. vm_compute. discriminate.
Defined.
